(** * qsearch web client: session store, theme resolver, search orchestrator

    A shallow embedding of the client-resident state management of the
    qsearch single-page shell:

    - [webapp/src/contexts/AuthContext.tsx] (both revisions: the
      redirect-based provider flow and the password flow),
    - [webapp/src/contexts/ThemeProvider.tsx],
    - [webapp/src/utils/api.ts] and [webapp/src/ui/App.tsx].

    React components are modelled as explicit state records.  A closure
    created by a render reads the state values of that render, so such
    values are passed to the embedded function as parameters, while the
    [setX] calls write the component store.  [async] bodies are written in
    a small state-and-exception monad: the state written before a [throw]
    survives into the [catch] and [finally] blocks, as in JavaScript. *)

From Stdlib Require Import String List ZArith QArith Bool Arith Lia DecimalString.
From Stdlib Require Import Ascii.
Import ListNotations.
Close Scope Q_scope.
Local Open Scope string_scope.

(* ===================================================================== *)
(** ** JavaScript control flow: completions, try / catch / finally       *)
(* ===================================================================== *)

Module Js.

(** The completion of a statement list: normal, or an exception carrying
    its message. *)
Inductive Completion (A : Type) : Type :=
| Normal (a : A)
| Throw (message : string).
Arguments Normal {A} a.
Arguments Throw {A} message.

Definition M (W A : Type) : Type := W -> W * Completion A.

Definition ret {W A} (a : A) : M W A := fun w => (w, Normal a).

Definition bind {W A B} (c : M W A) (k : A -> M W B) : M W B :=
  fun w =>
    match c w with
    | (w', Normal a) => k a w'
    | (w', Throw e) => (w', Throw e)
    end.

Definition throw {W A} (e : string) : M W A := fun w => (w, Throw e).

Definition modify {W} (f : W -> W) : M W unit := fun w => (f w, Normal tt).

(** [try { body } catch (error) { handler error }] *)
Definition try_catch {W A} (body : M W A) (handler : string -> M W A) : M W A :=
  fun w =>
    match body w with
    | (w', Normal a) => (w', Normal a)
    | (w', Throw e) => handler e w'
    end.

(** [try { body } finally { fin }]: [fin] always runs; the completion of
    [body] is kept unless [fin] itself throws. *)
Definition try_finally {W A} (body : M W A) (fin : M W unit) : M W A :=
  fun w =>
    match body w with
    | (w', r) =>
        match fin w' with
        | (w'', Normal _) => (w'', r)
        | (w'', Throw e) => (w'', Throw e)
        end
    end.

Definition when {W} (b : bool) (c : M W unit) : M W unit :=
  if b then c else ret tt.

End Js.

Declare Scope js_scope.
Delimit Scope js_scope with js.
Notation "x <- c ;; k" := (Js.bind c (fun x => k))
  (at level 61, c at next level, right associativity) : js_scope.
Notation "c ;; k" := (Js.bind c (fun _ => k))
  (at level 61, right associativity) : js_scope.

(* ===================================================================== *)
(** ** The backend as seen through [fetch]                               *)
(* ===================================================================== *)

Module Http.

(** What one [fetch] call does: the promise resolves with a response
    (any status; [json = None] is a body that [res.json()] cannot parse)
    or rejects because the request never completed. *)
Inductive Reply (A : Type) : Type :=
| Response (status : nat) (json : option A)
| NetworkFailure (reason : string).
Arguments Response {A} status json.
Arguments NetworkFailure {A} reason.

(** [Response.ok]: status in the range 200-299. *)
Definition ok (status : nat) : bool := ((200 <=? status) && (status <=? 299))%nat.

Inductive Endpoint : Type :=
| AuthProviders_GET      (* GET  /api/v1/auth/providers *)
| AuthMe_GET             (* GET  /api/v1/auth/me *)
| AuthRegister_POST      (* POST /api/v1/auth/register *)
| AuthLogin_POST         (* POST /api/v1/auth/login *)
| AuthLogout_POST.       (* POST /api/v1/auth/logout *)

Definition Endpoint_eqb (a b : Endpoint) : bool :=
  match a, b with
  | AuthProviders_GET, AuthProviders_GET
  | AuthMe_GET, AuthMe_GET
  | AuthRegister_POST, AuthRegister_POST
  | AuthLogin_POST, AuthLogin_POST
  | AuthLogout_POST, AuthLogout_POST => true
  | _, _ => false
  end.

(** A component store together with what the component did to the
    outside: the requests it issued (oldest first) and its
    [console.error] lines. *)
Record World (S : Type) : Type := mkWorld {
  store : S;
  issued : list Endpoint;
  console : list string
}.
Arguments mkWorld {S} store issued console.
Arguments store {S} _.
Arguments issued {S} _.
Arguments console {S} _.

Definition set_store {S} (f : S -> S) : Js.M (World S) unit :=
  Js.modify (fun w => mkWorld (f (store w)) (issued w) (console w)).

Definition console_error {S} (line : string) : Js.M (World S) unit :=
  Js.modify (fun w => mkWorld (store w) (issued w) (console w ++ [line])%list).

(** [await fetch(url, ...)]: the request is issued; a network failure
    rejects the promise, which the [await] turns into a throw. *)
Definition fetch {S A} (e : Endpoint) (r : Reply A)
  : Js.M (World S) (nat * option A) :=
  fun w =>
    let w' := mkWorld (store w) (issued w ++ [e])%list (console w) in
    match r with
    | Response status body => (w', Js.Normal (status, body))
    | NetworkFailure reason => (w', Js.Throw reason)
    end.

(** [await res.json()].  The message of the exception of an unreadable
    body is the engine's; one text stands for it here. *)
Definition json {S A} (res : nat * option A) : Js.M (World S) A :=
  match snd res with
  | Some a => Js.ret a
  | None => Js.throw "SyntaxError: Unexpected token in JSON"
  end.

Definition calls_to {S} (e : Endpoint) (w : World S) : nat :=
  length (filter (Endpoint_eqb e) (issued w)).

End Http.

(* ===================================================================== *)
(** ** Session store, redirect-based provider flow
       (AuthContext.tsx, first revision)                                 *)
(* ===================================================================== *)

Module OAuthSession.
Import Http.
Local Open Scope js_scope.

Record User : Type := mkUser {
  user_id : string;
  provider : string;
  email : string;
  name : string;
  avatar_url : string
}.

Record AuthProviders : Type := mkProviders {
  google : bool;
  microsoft : bool
}.

(** Body of [GET /api/v1/auth/providers]; either field may be absent. *)
Record ProvidersData : Type := mkProvidersData {
  pd_enabled : option bool;
  pd_providers : option AuthProviders
}.

(** Body of [GET /api/v1/auth/me]. *)
Record MeData : Type := mkMeData {
  authenticated : bool;
  me_user : option User
}.

(** The four [useState] cells of [AuthProvider]. *)
Record Store : Type := mkStore {
  user : option User;
  loading : bool;
  providers : AuthProviders;
  authEnabled : bool
}.

(** [useState(null)], [useState(true)],
    [useState({ google: false, microsoft: false })], [useState(false)] *)
Definition initial_store : Store :=
  mkStore None true (mkProviders false false) false.

Definition setUser (u : option User) : Js.M (World Store) unit :=
  set_store (fun s => mkStore u (loading s) (providers s) (authEnabled s)).
Definition setLoading (b : bool) : Js.M (World Store) unit :=
  set_store (fun s => mkStore (user s) b (providers s) (authEnabled s)).
Definition setProviders (p : AuthProviders) : Js.M (World Store) unit :=
  set_store (fun s => mkStore (user s) (loading s) p (authEnabled s)).
Definition setAuthEnabled (b : bool) : Js.M (World Store) unit :=
  set_store (fun s => mkStore (user s) (loading s) (providers s) b).

Record Backend : Type := mkBackend {
  on_providers : Reply ProvidersData;
  on_me : Reply MeData;
  on_logout : Reply unit
}.

(** [refreshUser], lines 51-85.  [authEnabled_seen] is the constant
    [authEnabled] of the render that created this closure: the
    [setAuthEnabled] call writes the store for the next render and does
    not change what the running closure reads at line 65. *)
Definition refreshUser (authEnabled_seen : bool) (be : Backend)
  : Js.M (World Store) unit :=
  Js.try_finally
    (Js.try_catch
       (providersRes <- fetch AuthProviders_GET (on_providers be) ;;
        Js.when (ok (fst providersRes))
          (providersData <- json providersRes ;;
           setAuthEnabled
             (match pd_enabled providersData with
              | Some b => b || false
              | None => false
              end) ;;
           setProviders
             (match pd_providers providersData with
              | Some p => p
              | None => mkProviders false false
              end)) ;;
        Js.when authEnabled_seen
          (meRes <- fetch AuthMe_GET (on_me be) ;;
           Js.when (ok (fst meRes))
             (data <- json meRes ;;
              match authenticated data, me_user data with
              | true, Some u => setUser (Some u)
              | _, _ => setUser None
              end)))
       (fun error =>
          console_error ("Failed to check auth status: " ++ error) ;;
          setUser None))
    (setLoading false).

(** [logout], lines 98-108. *)
Definition logout (be : Backend) : Js.M (World Store) unit :=
  Js.try_catch
    (_ <- fetch AuthLogout_POST (on_logout be) ;;
     setUser None)
    (fun error => console_error ("Logout failed: " ++ error)).

(** The world of a freshly constructed provider, before its mount effect. *)
Definition initial_world : World Store := mkWorld initial_store [] [].

(** [useEffect(() => { refreshUser(); }, [])]: the mount effect runs the
    [refreshUser] closure of the first render, whose [authEnabled] is the
    initial state value. *)
Definition initialize (be : Backend) : World Store * Js.Completion unit :=
  refreshUser (authEnabled initial_store) be initial_world.

(** [authenticated: !!user] of the context value. *)
Definition is_authenticated (s : Store) : bool :=
  match user s with Some _ => true | None => false end.

End OAuthSession.

(* ===================================================================== *)
(** ** Session store, password flow (AuthContext.tsx, second revision)   *)
(* ===================================================================== *)

Module PasswordSession.
Import Http.
Local Open Scope js_scope.

Record User : Type := mkUser {
  user_id : string;
  email : string;
  name : string;
  created_at : option string
}.

(** Body of [GET /api/v1/auth/me]. *)
Record MeData : Type := mkMeData {
  authenticated : bool;
  me_user : option User
}.

(** Body of the register and login replies:
    [{ok: true, user}] or [{detail}]. *)
Record CredentialData : Type := mkCredentialData {
  cd_ok : bool;
  cd_user : option User;
  cd_detail : option string
}.

(** The three [useState] cells of [AuthProvider]. *)
Record Store : Type := mkStore {
  user : option User;
  loading : bool;
  authEnabled : bool
}.

(** [useState(null)], [useState(true)], [useState(true)] *)
Definition initial_store : Store := mkStore None true true.

Definition setUser (u : option User) : Js.M (World Store) unit :=
  set_store (fun s => mkStore u (loading s) (authEnabled s)).
Definition setLoading (b : bool) : Js.M (World Store) unit :=
  set_store (fun s => mkStore (user s) b (authEnabled s)).

Record Backend : Type := mkBackend {
  on_me : Reply MeData;
  on_register : Reply CredentialData;
  on_login : Reply CredentialData;
  on_logout : Reply unit
}.

(** [refreshUser], lines 164-184. *)
Definition refreshUser (be : Backend) : Js.M (World Store) unit :=
  Js.try_finally
    (Js.try_catch
       (meRes <- fetch AuthMe_GET (on_me be) ;;
        Js.when (ok (fst meRes))
          (data <- json meRes ;;
           match authenticated data, me_user data with
           | true, Some u => setUser (Some u)
           | _, _ => setUser None
           end))
       (fun error =>
          console_error ("Failed to check auth status: " ++ error) ;;
          setUser None))
    (setLoading false).

Record Outcome : Type := mkOutcome {
  out_ok : bool;
  out_error : option string
}.

(** [data.detail || fallback]: an absent or empty detail is falsy. *)
Definition detail_or (d : option string) (fallback : string) : string :=
  match d with
  | Some EmptyString => fallback
  | Some s => s
  | None => fallback
  end.

(** [register], lines 190-207 (the request body is the caller's triple). *)
Definition register (be : Backend) : Js.M (World Store) Outcome :=
  Js.try_catch
    (res <- fetch AuthRegister_POST (on_register be) ;;
     data <- json res ;;
     if ok (fst res) && cd_ok data
     then (setUser (cd_user data) ;; Js.ret (mkOutcome true None))
     else Js.ret (mkOutcome false
                    (Some (detail_or (cd_detail data) "Registration failed"))))
    (fun _ => Js.ret (mkOutcome false (Some "Network error"))).

(** [login], lines 209-226. *)
Definition login (be : Backend) : Js.M (World Store) Outcome :=
  Js.try_catch
    (res <- fetch AuthLogin_POST (on_login be) ;;
     data <- json res ;;
     if ok (fst res) && cd_ok data
     then (setUser (cd_user data) ;; Js.ret (mkOutcome true None))
     else Js.ret (mkOutcome false
                    (Some (detail_or (cd_detail data) "Login failed"))))
    (fun _ => Js.ret (mkOutcome false (Some "Network error"))).

(** [logout], lines 228-238. *)
Definition logout (be : Backend) : Js.M (World Store) unit :=
  Js.try_catch
    (_ <- fetch AuthLogout_POST (on_logout be) ;;
     setUser None)
    (fun error => console_error ("Logout failed: " ++ error)).

Definition initial_world : World Store := mkWorld initial_store [] [].

(** [useEffect(() => { refreshUser(); }, [])] *)
Definition initialize (be : Backend) : World Store * Js.Completion unit :=
  refreshUser be initial_world.

(** [authenticated: !!user] of the context value. *)
Definition is_authenticated (s : Store) : bool :=
  match user s with Some _ => true | None => false end.

End PasswordSession.

(* ===================================================================== *)
(** ** Theme resolver (contexts/ThemeProvider.tsx)                       *)
(* ===================================================================== *)

Module Theme.

(** [type ThemeMode = "light" | "dark" | "system"] *)
Inductive ThemeMode : Type := light | dark | system.

(** ["light" | "dark"], the type of [resolvedTheme]. *)
Inductive Resolved : Type := rlight | rdark.

Definition ThemeMode_eqb (a b : ThemeMode) : bool :=
  match a, b with
  | light, light | dark, dark | system, system => true
  | _, _ => false
  end.

Definition mode_name (t : ThemeMode) : string :=
  match t with light => "light" | dark => "dark" | system => "system" end.

Definition class_name (r : Resolved) : string :=
  match r with rlight => "light" | rdark => "dark" end.

(** [localStorage]: a key-value store, or one whose every access throws
    (storage disabled by the browser). *)
Inductive Storage : Type :=
| Available (items : list (string * string))
| Disabled.

Fixpoint lookup (key : string) (items : list (string * string)) : option string :=
  match items with
  | [] => None
  | (k, v) :: rest => if String.eqb k key then Some v else lookup key rest
  end.

Fixpoint assign (key value : string) (items : list (string * string))
  : list (string * string) :=
  match items with
  | [] => [(key, value)]
  | (k, v) :: rest =>
      if String.eqb k key then (k, value) :: rest
      else (k, v) :: assign key value rest
  end.

(** [localStorage.getItem(key)] *)
Definition getItem (key : string) (s : Storage) : Js.Completion (option string) :=
  match s with
  | Available items => Js.Normal (lookup key items)
  | Disabled => Js.Throw "SecurityError"
  end.

(** [localStorage.setItem(key, value)] *)
Definition setItem (key value : string) (s : Storage) : Js.Completion Storage :=
  match s with
  | Available items => Js.Normal (Available (assign key value items))
  | Disabled => Js.Throw "SecurityError"
  end.

(** The browser around the component: storage, the live value of the
    media query [(prefers-color-scheme: dark)], the class list of
    [document.documentElement], and the [change] listeners now
    registered on the media query (one identifier per handler closure). *)
Record Browser : Type := mkBrowser {
  storage : Storage;
  prefers_dark : bool;
  classList : list string;
  listeners : list nat
}.

(** [resolveTheme], lines 13-18. *)
Definition resolveTheme (prefersDark : bool) (theme : ThemeMode) : Resolved :=
  match theme with
  | system => if prefersDark then rdark else rlight
  | light => rlight
  | dark => rdark
  end.

(** [DOMTokenList.remove] and [DOMTokenList.add] *)
Definition classList_remove (tokens : list string) (cl : list string) : list string :=
  filter (fun c => negb (existsb (String.eqb c) tokens)) cl.

Definition classList_add (token : string) (cl : list string) : list string :=
  if existsb (String.eqb token) cl then cl else (cl ++ [token])%list.

(** [applyThemeClass], lines 20-23. *)
Definition applyThemeClass (resolved : Resolved) (cl : list string) : list string :=
  classList_add (class_name resolved) (classList_remove ["light"; "dark"] cl).

(** The [useState] initializer of [theme], lines 26-30, once the stored
    string has been read. *)
Definition parse_saved (saved : option string) : ThemeMode :=
  match saved with
  | Some s =>
      if String.eqb s "light" then light
      else if String.eqb s "dark" then dark
      else if String.eqb s "system" then system
      else system
  | None => system
  end.

(** The initializer itself: [localStorage.getItem] is called with no
    [try] around it, so its exception leaves the initializer. *)
Definition initial_theme (s : Storage) : Js.Completion ThemeMode :=
  match getItem "theme" s with
  | Js.Normal saved => Js.Normal (parse_saved saved)
  | Js.Throw e => Js.Throw e
  end.

(** The mounted provider: its two state cells, the update queued by
    [setTheme] and not yet rendered, the cleanup returned by the last run
    of the subscription effect (the handler it will remove), and the
    supply of handler identities. *)
Record Provider : Type := mkProvider {
  theme : ThemeMode;
  resolvedTheme : Resolved;
  queued : option ThemeMode;
  cleanup : option nat;
  next_handler : nat
}.

Record World : Type := mkWorld {
  browser : Browser;
  provider : Provider
}.

(** First effect, lines 36-41. *)
Definition persist_effect (w : World) : Js.Completion World :=
  let b := browser w in
  let p := provider w in
  let resolved := resolveTheme (prefers_dark b) (theme p) in
  let cl := applyThemeClass resolved (classList b) in
  match setItem "theme" (mode_name (theme p)) (storage b) with
  | Js.Normal st =>
      Js.Normal
        (mkWorld (mkBrowser st (prefers_dark b) cl (listeners b))
                 (mkProvider (theme p) resolved (queued p) (cleanup p)
                             (next_handler p)))
  | Js.Throw e => Js.Throw e
  end.

(** Second effect, lines 43-53: subscribe when the theme is [system]
    and remember the handler for the cleanup. *)
Definition subscribe_effect (w : World) : World :=
  let b := browser w in
  let p := provider w in
  match theme p with
  | system =>
      let h := next_handler p in
      mkWorld (mkBrowser (storage b) (prefers_dark b) (classList b)
                         (listeners b ++ [h])%list)
              (mkProvider (theme p) (resolvedTheme p) (queued p) (Some h) (S h))
  | _ =>
      mkWorld b (mkProvider (theme p) (resolvedTheme p) (queued p) None
                            (next_handler p))
  end.

(** [removeEventListener]: removes that handler. *)
Definition remove_listener (h : nat) (ls : list nat) : list nat :=
  filter (fun x => negb (Nat.eqb x h)) ls.

(** The cleanup of the second effect, line 52. *)
Definition run_cleanup (w : World) : World :=
  let b := browser w in
  let p := provider w in
  match cleanup p with
  | Some h =>
      mkWorld (mkBrowser (storage b) (prefers_dark b) (classList b)
                         (remove_listener h (listeners b)))
              (mkProvider (theme p) (resolvedTheme p) (queued p) None
                          (next_handler p))
  | None => w
  end.

(** The [handler] closure, lines 46-50. *)
Definition handler (w : World) : World :=
  let b := browser w in
  let p := provider w in
  let resolved := resolveTheme (prefers_dark b) system in
  mkWorld (mkBrowser (storage b) (prefers_dark b)
                     (applyThemeClass resolved (classList b)) (listeners b))
          (mkProvider (theme p) resolved (queued p) (cleanup p) (next_handler p)).

(** Mounting [ThemeProvider]: both initializers, then both effects. *)
Definition mount (b : Browser) : Js.Completion World :=
  match initial_theme (storage b) with
  | Js.Normal t =>
      let w := mkWorld b (mkProvider t (resolveTheme (prefers_dark b) t) None None 0) in
      match persist_effect w with
      | Js.Normal w' => Js.Normal (subscribe_effect w')
      | Js.Throw e => Js.Throw e
      end
  | Js.Throw e => Js.Throw e
  end.

(** [setTheme], which is [setThemeState] (line 59): a state setter.  It
    queues the new value for the next render and returns. *)
Definition setTheme (t : ThemeMode) (w : World) : World :=
  let p := provider w in
  mkWorld (browser w)
          (mkProvider (theme p) (resolvedTheme p) (Some t) (cleanup p)
                      (next_handler p)).

(** The render that follows: the queued value becomes [theme]; when it
    differs from the previous one the [[theme]] dependency of both
    effects has changed, so the old cleanup runs and both effects run
    again.  A queued value equal to the current one changes nothing. *)
Definition render (w : World) : Js.Completion World :=
  let p := provider w in
  match queued p with
  | None => Js.Normal w
  | Some t =>
      let settled :=
        mkWorld (browser w)
                (mkProvider t (resolvedTheme p) None (cleanup p) (next_handler p)) in
      if ThemeMode_eqb t (theme p)
      then Js.Normal
             (mkWorld (browser w)
                      (mkProvider (theme p) (resolvedTheme p) None (cleanup p)
                                  (next_handler p)))
      else
        match persist_effect (run_cleanup settled) with
        | Js.Normal w' => Js.Normal (subscribe_effect w')
        | Js.Throw e => Js.Throw e
        end
  end.

(** The operating environment changes its colour scheme: the media query
    takes the new value and every registered [change] listener runs. *)
Definition ambient_change (prefersDark : bool) (w : World) : World :=
  let b := browser w in
  let w0 := mkWorld (mkBrowser (storage b) prefersDark (classList b) (listeners b))
                    (provider w) in
  fold_left (fun acc _ => handler acc) (listeners b) w0.

(** Unmounting the provider runs the pending cleanup. *)
Definition unmount (w : World) : World := run_cleanup w.

(** What the shell may do to a mounted provider. *)
Inductive Event : Type :=
| SetTheme (t : ThemeMode)
| Render
| AmbientChange (prefersDark : bool).

Definition step (e : Event) (w : World) : Js.Completion World :=
  match e with
  | SetTheme t => Js.Normal (setTheme t w)
  | Render => render w
  | AmbientChange d => Js.Normal (ambient_change d w)
  end.

Fixpoint run (es : list Event) (w : World) : Js.Completion World :=
  match es with
  | [] => Js.Normal w
  | e :: rest =>
      match step e w with
      | Js.Normal w' => run rest w'
      | Js.Throw x => Js.Throw x
      end
  end.

(** [getPreference()]: the [theme] of the context value. *)
Definition getPreference (w : World) : ThemeMode := theme (provider w).

Definition has_class (c : string) (w : World) : bool :=
  existsb (String.eqb c) (classList (browser w)).

(** The mode the presentation layer shows: which of the two classes the
    document element carries. *)
Definition applied_mode (w : World) : option Resolved :=
  match has_class "light" w, has_class "dark" w with
  | true, false => Some rlight
  | false, true => Some rdark
  | _, _ => None
  end.

Definition persisted (w : World) : option string :=
  match storage (browser w) with
  | Available items => lookup "theme" items
  | Disabled => None
  end.

End Theme.

(* ===================================================================== *)
(** ** The pre-render script of the entry point (main.tsx)               *)
(* ===================================================================== *)

Module Main.
Import Theme.

(** [classList.toggle(token, force)] *)
Definition classList_toggle (token : string) (force : bool) (cl : list string)
  : list string :=
  if force then classList_add token cl else classList_remove [token] cl.

(** [localStorage.getItem("theme") || "system"]: absent and empty are
    falsy. *)
Definition saved_or_system (saved : option string) : string :=
  match saved with
  | Some EmptyString => "system"
  | Some s => s
  | None => "system"
  end.

(** The script that applies the theme before React renders: the whole
    body is inside a [try] whose [catch] ignores the exception. *)
Definition apply_before_render (b : Browser) : Browser :=
  match getItem "theme" (storage b) with
  | Js.Normal saved =>
      let saved := saved_or_system saved in
      let resolved :=
        if String.eqb saved "dark" || String.eqb saved "light"
        then saved
        else if prefers_dark b then "dark" else "light" in
      mkBrowser (storage b) (prefers_dark b)
                (classList_toggle "dark" (String.eqb resolved "dark") (classList b))
                (listeners b)
  | Js.Throw _ => b
  end.

End Main.

(* ===================================================================== *)
(** ** Search client (utils/api.ts, second revision)                     *)
(* ===================================================================== *)

Module Api.

(** [type SearchMode = "local" | "hybrid"] *)
Inductive SearchMode : Type := local | hybrid.

(** [type SearchResult]; an absent field is [None].  Numbers are the
    decimal values of the JSON text. *)
Record SearchResult : Type := mkResult {
  doc_id : option string;
  url : string;
  title : string;
  snippet : string;
  distance : option Q;
  basin_distance : option Q;
  hybrid_score : option Q;
  serper_position : option Q
}.

(** [type SearchResponse] *)
Record SearchResponse : Type := mkResponse {
  resp_query : string;
  resp_count : Z;
  cache_hit : option bool;
  mode : option SearchMode;
  resp_alpha : option Q;
  results : option (list SearchResult)
}.

(** The JSON object handed to [JSON.stringify]; a field the call does not
    put in the object is [None]. *)
Record Body : Type := mkBody {
  body_query : string;
  body_limit : Z;
  body_alpha : option Q;
  body_learn : option bool
}.

Record Request : Type := mkRequest {
  path : string;
  body : Body
}.

(** What the [fetch] of a search request does: a response with its
    status, its raw text and that text parsed as JSON (when it parses),
    or a rejected promise. *)
Inductive Reply : Type :=
| Answered (status : nat) (text : string) (parsed : option SearchResponse)
| Unreachable (reason : string).

(** A status number inside a template string. *)
Definition show_status (status : nat) : string :=
  NilZero.string_of_uint (Nat.to_uint status).

(** [qsearchSearch], lines 70-84: the request it sends ... *)
Definition qsearchSearch_request (query : string) (limit : Z) : Request :=
  mkRequest "/search" (mkBody query limit None None).

(** ... and what it makes of the reply. *)
Definition qsearchSearch_result (r : Reply) : Js.Completion SearchResponse :=
  match r with
  | Unreachable reason => Js.Throw reason
  | Answered status text parsed =>
      if negb (Http.ok status)
      then Js.Throw ("qsearch API error: " ++ show_status status ++ " " ++ text)
      else
        match parsed with
        | Some data =>
            Js.Normal (mkResponse (resp_query data) (resp_count data)
                                  (cache_hit data) (Some local)
                                  (resp_alpha data) (results data))
        | None => Js.Throw "SyntaxError: Unexpected token in JSON"
        end
  end.

(** [qsearchHybrid], lines 86-104, with its default parameters
    [alpha: number = 0.5] and [learn: boolean = true]: an omitted
    argument is [None]. *)
Definition qsearchHybrid_request
  (query : string) (limit : Z) (alpha : option Q) (learn : option bool) : Request :=
  let alpha := match alpha with Some a => a | None => 0.5%Q end in
  let learn := match learn with Some l => l | None => true end in
  mkRequest "/hybrid" (mkBody query limit (Some alpha) (Some learn)).

Definition qsearchHybrid_result (r : Reply) : Js.Completion SearchResponse :=
  match r with
  | Unreachable reason => Js.Throw reason
  | Answered status text parsed =>
      if negb (Http.ok status)
      then Js.Throw ("qsearch hybrid API error: " ++ show_status status ++ " " ++ text)
      else
        match parsed with
        | Some data => Js.Normal data
        | None => Js.Throw "SyntaxError: Unexpected token in JSON"
        end
  end.

End Api.

(* ===================================================================== *)
(** ** Search orchestrator (ui/App.tsx, hybrid revision)                 *)
(* ===================================================================== *)

Module App.
Import Api.

(** The [useState] cells of [App] that the search reads or writes.
    [limit] holds [Number(e.target.value)]; it is only passed on to the
    request, and is an integer here. *)
Record State : Type := mkState {
  query : string;
  limit : Z;
  loading : bool;
  error : option string;
  cacheHit : option bool;
  results : list SearchResult;
  searchMode : SearchMode;
  alpha : Q;
  currentMode : option SearchMode
}.

(** Lines 17-29. *)
Definition initial_state : State :=
  mkState "" 10 false None None [] hybrid 0.5%Q None.

(** An [onSearch] call suspended at its [await]: the branch it took. *)
Record Pending : Type := mkPending {
  ticket : nat;
  branch : SearchMode
}.

(** The component, the requests sent so far (oldest first) and the
    [onSearch] calls waiting for their reply. *)
Record World : Type := mkWorld {
  app : State;
  sent : list Request;
  inflight : list Pending;
  next_ticket : nat
}.

Definition initial_world : World := mkWorld initial_state [] [] 0.

(** [onSearch], lines 49-58 and 61-62: the five resets, then the request
    of the selected mode, up to the [await]. *)
Definition onSearch_begin (w : World) : World :=
  let s := app w in
  let s' := mkState (query s) (limit s) true None None [] (searchMode s)
                    (alpha s) None in
  let req :=
    match searchMode s with
    | hybrid => qsearchHybrid_request (query s) (limit s) (Some (alpha s)) (Some true)
    | local => qsearchSearch_request (query s) (limit s)
    end in
  mkWorld s' (sent w ++ [req])%list
          (inflight w ++ [mkPending (next_ticket w) (searchMode s)])%list
          (S (next_ticket w)).

(** [res.results || []] *)
Definition results_or_empty (res : SearchResponse) : list SearchResult :=
  match Api.results res with Some l => l | None => [] end.

(** [Boolean(res.cache_hit)] *)
Definition to_Boolean (b : option bool) : bool :=
  match b with Some x => x | None => false end.

(** [onSearch], lines 58-71: what runs when the awaited promise
    settles, in the branch the call took. *)
Definition onSearch_resume (br : SearchMode) (r : Reply) (s : State) : State :=
  let after_try :=
    match br with
    | hybrid =>
        match qsearchHybrid_result r with
        | Js.Normal res =>
            mkState (query s) (limit s) (loading s) (error s) (cacheHit s)
                    (results_or_empty res) (searchMode s) (alpha s) (Some hybrid)
        | Js.Throw message =>
            mkState (query s) (limit s) (loading s) (Some message) (cacheHit s)
                    (results s) (searchMode s) (alpha s) (currentMode s)
        end
    | local =>
        match qsearchSearch_result r with
        | Js.Normal res =>
            mkState (query s) (limit s) (loading s) (error s)
                    (Some (to_Boolean (cache_hit res)))
                    (results_or_empty res) (searchMode s) (alpha s) (Some local)
        | Js.Throw message =>
            mkState (query s) (limit s) (loading s) (Some message) (cacheHit s)
                    (results s) (searchMode s) (alpha s) (currentMode s)
        end
    end in
  mkState (query after_try) (limit after_try) false (error after_try)
          (cacheHit after_try) (results after_try) (searchMode after_try)
          (alpha after_try) (currentMode after_try).

Fixpoint take_pending (t : nat) (ps : list Pending)
  : option (Pending * list Pending) :=
  match ps with
  | [] => None
  | p :: rest =>
      if Nat.eqb (ticket p) t then Some (p, rest)
      else
        match take_pending t rest with
        | Some (found, rest') => Some (found, p :: rest')
        | None => None
        end
  end.

(** The promise awaited by the call with ticket [t] settles with reply
    [r]: that call resumes.  The state updates of one resumption are
    applied together (the root is created with [createRoot]). *)
Definition onSearch_settle (t : nat) (r : Reply) (w : World) : World :=
  match take_pending t (inflight w) with
  | Some (p, rest) =>
      mkWorld (onSearch_resume (branch p) r (app w)) (sent w) rest (next_ticket w)
  | None => w
  end.

Definition setQuery (q : string) (s : State) : State :=
  mkState q (limit s) (loading s) (error s) (cacheHit s) (results s)
          (searchMode s) (alpha s) (currentMode s).
Definition setLimit (n : Z) (s : State) : State :=
  mkState (query s) n (loading s) (error s) (cacheHit s) (results s)
          (searchMode s) (alpha s) (currentMode s).
Definition setSearchMode (m : SearchMode) (s : State) : State :=
  mkState (query s) (limit s) (loading s) (error s) (cacheHit s) (results s)
          m (alpha s) (currentMode s).
Definition setAlpha (a : Q) (s : State) : State :=
  mkState (query s) (limit s) (loading s) (error s) (cacheHit s) (results s)
          (searchMode s) a (currentMode s).

Definition on_app (f : State -> State) (w : World) : World :=
  mkWorld (f (app w)) (sent w) (inflight w) (next_ticket w).

(** What can happen to the mounted shell: the four inputs of the form,
    a call of [onSearch], and the arrival of a reply. *)
Inductive Event : Type :=
| TypeQuery (q : string)
| PickLimit (n : Z)
| PickMode (m : SearchMode)
| SlideAlpha (a : Q)
| Search
| Settle (t : nat) (r : Reply).

(** Every [Search] event calls [onSearch]. *)
Definition fire (e : Event) (w : World) : World :=
  match e with
  | TypeQuery q => on_app (setQuery q) w
  | PickLimit n => on_app (setLimit n) w
  | PickMode m => on_app (setSearchMode m) w
  | SlideAlpha a => on_app (setAlpha a) w
  | Search => onSearch_begin w
  | Settle t r => onSearch_settle t r w
  end.

(** The submit button, lines 274-285: [disabled={loading}]. *)
Definition submit_disabled (s : State) : bool := loading s.

(** The events with the one gate of the submit button: a submission
    while a search is loading is dropped.  The other constraints of the
    rendered form ([required] on the query, [min] and [max] on the limit)
    are not part of it, so it lets through every submission the rendered
    form does, and more. *)
Definition form_fire (e : Event) (w : World) : World :=
  match e with
  | Search => if submit_disabled (app w) then w else onSearch_begin w
  | _ => fire e w
  end.

Definition fire_all (es : list Event) (w : World) : World :=
  fold_left (fun acc e => fire e acc) es w.

Definition form_fire_all (es : list Event) (w : World) : World :=
  fold_left (fun acc e => form_fire e acc) es w.

(** The status line, lines 289-315.  [shown_alpha] is the number printed
    after the alpha sign, [shown_cache] the HIT / MISS indicator.  The
    first test is [error ? ... : ...]: an empty message is falsy, as is
    [null]. *)
Record StatusLine : Type := mkStatus {
  shown_error : option string;
  shown_mode : option SearchMode;
  shown_alpha : option Q;
  shown_cache : option bool
}.

Definition status_line (s : State) : StatusLine :=
  match error s with
  | Some (String c rest) => mkStatus (Some (String c rest)) None None None
  | _ =>
      match currentMode s with
      | None => mkStatus None None None None
      | Some hybrid => mkStatus None (Some hybrid) (Some (alpha s)) None
      | Some local => mkStatus None (Some local) None (cacheHit s)
      end
  end.

(** [Number(x || 0)] for an optional numeric field: absent and zero are
    both falsy. *)
Definition number_or_zero (x : option Q) : Q :=
  match x with
  | Some v => if Qeq_bool v 0 then 0%Q else v
  | None => 0%Q
  end.

(** The score badges of one result card, lines 369-418. *)
Inductive Badges : Type :=
| HybridBadges (position : option Q) (d : Q) (H : Q)
| LocalBadge (d : Q).

Definition badges (current : option SearchMode) (r : SearchResult) : Badges :=
  match current with
  | Some hybrid =>
      HybridBadges (serper_position r) (number_or_zero (basin_distance r))
                   (number_or_zero (hybrid_score r))
  | _ => LocalBadge (number_or_zero (distance r))
  end.

(** The results panel, lines 318-426. *)
Inductive Panel : Type :=
| Skeleton
| NoResults
| Cards (cards : list (SearchResult * Badges)).

Definition panel (s : State) : Panel :=
  if loading s then Skeleton
  else
    match results s with
    | [] => NoResults
    | rs => Cards (map (fun r => (r, badges (currentMode s) r)) rs)
    end.

(** What the view shows of a search: status line and results panel. *)
Definition visible (s : State) : StatusLine * Panel := (status_line s, panel s).

End App.

(* ===================================================================== *)
(** ** The API base path (utils/api.ts and ui/Federation.tsx, [apiBase]) *)
(* ===================================================================== *)

Module Url.

(** [s.replace(/\/+$/, "")]: the leftmost match of the pattern is the
    whole run of slashes that ends the string; it is removed. *)
Fixpoint strip_trailing_slashes (s : string) : string :=
  match s with
  | EmptyString => EmptyString
  | String c rest =>
      match strip_trailing_slashes rest with
      | EmptyString =>
          if Ascii.eqb c "/"%char then EmptyString else String c EmptyString
      | kept => String c kept
      end
  end.

(** [apiBase], api.ts lines 64-68.  The argument is
    [import.meta.env?.VITE_QSEARCH_API_BASE]; absent and empty are
    falsy. *)
Definition apiBase (env : option string) : string :=
  match env with
  | None => ""
  | Some EmptyString => ""
  | Some base => strip_trailing_slashes base
  end.

(** [const apiBase = import.meta.env.VITE_QSEARCH_API_BASE || ''] of
    [AuthProvider]: the value is used as it is. *)
Definition auth_apiBase (env : option string) : string :=
  match env with
  | None => ""
  | Some base => base
  end.

(** The template strings of the requests. *)
Definition search_url (env : option string) : string := apiBase env ++ "/search".
Definition hybrid_url (env : option string) : string := apiBase env ++ "/hybrid".
Definition stats_url (env : option string) : string := apiBase env ++ "/learner/stats".
Definition me_url (env : option string) : string :=
  auth_apiBase env ++ "/api/v1/auth/me".

(** [window.location.href] set by [login(provider)] of the provider
    revision, AuthContext.tsx lines 93-95. *)
Definition provider_login_url (env : option string) (provider : string) : string :=
  auth_apiBase env ++ "/api/v1/auth/" ++ provider ++ "/login".

Fixpoint last_char (s : string) : option Ascii.ascii :=
  match s with
  | EmptyString => None
  | String c EmptyString => Some c
  | String _ rest => last_char rest
  end.

Fixpoint slashes (n : nat) : string :=
  match n with
  | O => EmptyString
  | S k => String "/"%char (slashes k)
  end.

End Url.

(* ===================================================================== *)
(** ** Sequences of session operations (password revision)               *)
(* ===================================================================== *)

Module SessionLife.
Import Http PasswordSession.

(** A call of one of the four operations of the context value, with the
    backend that answers it. *)
Inductive Op : Type :=
| Refresh (be : Backend)
| Login (be : Backend)
| Register (be : Backend)
| Logout (be : Backend).

(** The caller awaits the operation and drops its value. *)
Definition forget {W A} (c : Js.M W A) : Js.M W unit :=
  fun w =>
    match c w with
    | (w', Js.Normal _) => (w', Js.Normal tt)
    | (w', Js.Throw e) => (w', Js.Throw e)
    end.

Definition perform (o : Op) : Js.M (World Store) unit :=
  match o with
  | Refresh be => refreshUser be
  | Login be => forget (login be)
  | Register be => forget (register be)
  | Logout be => logout be
  end.

(** The operations one after the other; an exception ends the sequence. *)
Fixpoint perform_all (os : list Op) : Js.M (World Store) unit :=
  match os with
  | [] => Js.ret tt
  | o :: rest => Js.bind (perform o) (fun _ => perform_all rest)
  end.

(** The payload a credential reply installs as session: the reply has a
    success status and its body says [ok]. *)
Definition accepted (r : Reply CredentialData) : option (option User) :=
  match r with
  | Response status (Some data) =>
      if ok status && cd_ok data then Some (cd_user data) else None
  | _ => None
  end.

End SessionLife.

(* ===================================================================== *)
(** ** The sign-in dialog of the password flow (ui/LoginModal.tsx)       *)
(* ===================================================================== *)

Module LoginModal.
Import Http.

(** [useState<'login' | 'register'>] *)
Inductive Mode : Type := login_mode | register_mode.

(** The [useState] cells of the dialog, and [isOpen]: the
    [showLoginModal] cell of [App] that the dialog receives as a prop and
    that [onClose] sets to false. *)
Record State : Type := mkState {
  isOpen : bool;
  mode : Mode;
  email : string;
  password : string;
  name : string;
  error : string;
  loading : bool
}.

(** The dialog as [App] opens it. *)
Definition opened : State := mkState true login_mode "" "" "" "" false.

(** [result.error || fallback] *)
Definition error_or (e : option string) (fallback : string) : string :=
  match e with
  | Some EmptyString => fallback
  | Some s => s
  | None => fallback
  end.

(** [handleSubmit], lines 20-46. *)
Definition handleSubmit (be : PasswordSession.Backend) (m : State)
           (w : World PasswordSession.Store)
  : State * World PasswordSession.Store :=
  let started := mkState (isOpen m) (mode m) (email m) (password m) (name m) "" true in
  let call :=
    match mode m with
    | register_mode => PasswordSession.register be
    | login_mode => PasswordSession.login be
    end in
  let fallback :=
    match mode m with
    | register_mode => "Registration failed"
    | login_mode => "Login failed"
    end in
  let '(w', completion) := call w in
  let after_try :=
    match completion with
    | Js.Normal result =>
        if PasswordSession.out_ok result
        then mkState false (mode started) (email started) (password started)
                     (name started) (error started) (loading started)
        else mkState (isOpen started) (mode started) (email started)
                     (password started) (name started)
                     (error_or (PasswordSession.out_error result) fallback)
                     (loading started)
    | Js.Throw _ =>
        mkState (isOpen started) (mode started) (email started) (password started)
                (name started) "An error occurred" (loading started)
    end in
  (mkState (isOpen after_try) (mode after_try) (email after_try)
           (password after_try) (name after_try) (error after_try) false,
   w').

(** [switchMode], lines 48-51. *)
Definition switchMode (m : State) : State :=
  mkState (isOpen m)
          (match mode m with login_mode => register_mode | register_mode => login_mode end)
          (email m) (password m) (name m) "" (loading m).

End LoginModal.

(* ===================================================================== *)
(** ** The user menu (ui/UserMenu.tsx)                                   *)
(* ===================================================================== *)

Module UserMenu.

(** The [isOpen] cell, the [mousedown] listeners this menu has on the
    document now (one identifier per [handleClickOutside] closure), the
    cleanup of the last run of the effect (the handler it removes), and
    the supply of handler identities. *)
Record Menu : Type := mkMenu {
  isOpen : bool;
  doc_listeners : list nat;
  cleanup : option nat;
  next_handler : nat
}.

(** The effect, lines 162-176: the listener is added only when the menu
    is open; the cleanup removes it in either case. *)
Definition outside_effect (m : Menu) : Menu :=
  let h := next_handler m in
  mkMenu (isOpen m)
         (if isOpen m then (doc_listeners m ++ [h])%list else doc_listeners m)
         (Some h) (S h).

Definition run_cleanup (m : Menu) : Menu :=
  match cleanup m with
  | Some h =>
      mkMenu (isOpen m) (filter (fun x => negb (Nat.eqb x h)) (doc_listeners m))
             None (next_handler m)
  | None => m
  end.

(** Mounting: [useState(false)], then the effect. *)
Definition mount : Menu := outside_effect (mkMenu false [] None 0).

(** [setIsOpen(v)] and the render that follows: a new value changes the
    [[isOpen]] dependency, so the cleanup and the effect run; the same
    value changes nothing. *)
Definition setIsOpen (v : bool) (m : Menu) : Menu :=
  if Bool.eqb v (isOpen m) then m
  else outside_effect
         (run_cleanup (mkMenu v (doc_listeners m) (cleanup m) (next_handler m))).

(** [handleClickOutside], lines 163-167.  [attached] says that
    [menuRef.current] is set (the menu is rendered: a user is signed in),
    [inside] that the menu contains the event target. *)
Definition handleClickOutside (attached inside : bool) (m : Menu) : Menu :=
  if attached && negb inside then setIsOpen false m else m.

(** A [mousedown] on the document: the listeners registered at that
    moment run. *)
Definition mousedown (attached inside : bool) (m : Menu) : Menu :=
  fold_left (fun acc _ => handleClickOutside attached inside acc) (doc_listeners m) m.

(** [handleLogout], lines 180-183, over the [logout] of the context. *)
Definition handleLogout {W} (logout : Js.M W unit) (m : Menu) (w : W)
  : Menu * W * Js.Completion unit :=
  match logout w with
  | (w', Js.Normal _) => (setIsOpen false m, w', Js.Normal tt)
  | (w', Js.Throw e) => (m, w', Js.Throw e)
  end.

(** What the user does to the menu. *)
Inductive Event : Type :=
| ToggleClick                                (* [setIsOpen(!isOpen)], line 188 *)
| MouseDown (attached inside : bool)
| SignedOut.                                 (* the [setIsOpen(false)] of line 182 *)

Definition step (e : Event) (m : Menu) : Menu :=
  match e with
  | ToggleClick => setIsOpen (negb (isOpen m)) m
  | MouseDown attached inside => mousedown attached inside m
  | SignedOut => setIsOpen false m
  end.

Definition run (es : list Event) (m : Menu) : Menu :=
  fold_left (fun acc e => step e acc) es m.

Definition unmount (m : Menu) : Menu := run_cleanup m.

End UserMenu.

(* ===================================================================== *)
(** ** Learner statistics (utils/api.ts [getLearnerStats], App.tsx 34-47) *)
(* ===================================================================== *)

Module Learner.

(** [type LearnerStats] *)
Record LearnerStats : Type := mkStats {
  urls_queued : Z;
  urls_crawled : Z;
  urls_failed : Z;
  documents_added : Z;
  queue_size : Z;
  last_crawl_time : option string;
  running : bool
}.

Inductive Reply : Type :=
| Answered (status : nat) (parsed : option LearnerStats)
| Unreachable (reason : string).

(** [getLearnerStats], api.ts lines 106-113, on the reply of its
    request. *)
Definition getLearnerStats_result (r : Reply) : Js.Completion LearnerStats :=
  match r with
  | Unreachable reason => Js.Throw reason
  | Answered status parsed =>
      if negb (Http.ok status)
      then Js.Throw ("Failed to get learner stats: " ++ Api.show_status status)
      else
        match parsed with
        | Some stats => Js.Normal stats
        | None => Js.Throw "SyntaxError: Unexpected token in JSON"
        end
  end.

(** The shell's side of the polling: the [learnerStats] cell, the number
    of statistics requests issued, the interval timers alive in the
    browser, the timer the cleanup of the effect will clear, and the
    supply of timer identifiers. *)
Record Shell : Type := mkShell {
  learnerStats : option LearnerStats;
  requested : nat;
  live_timers : list nat;
  interval : option nat;
  next_timer : nat
}.

(** [useState<LearnerStats | null>(null)], nothing requested, no timer. *)
Definition unmounted : Shell := mkShell None 0 [] None 0.

(** [fetchStats], lines 36-43, up to its [await] ... *)
Definition fetchStats_begin (s : Shell) : Shell :=
  mkShell (learnerStats s) (S (requested s)) (live_timers s) (interval s) (next_timer s).

(** ... and from there: the [catch] ignores every error. *)
Definition fetchStats_resume (r : Reply) (s : Shell) : Shell :=
  match getLearnerStats_result r with
  | Js.Normal stats =>
      mkShell (Some stats) (requested s) (live_timers s) (interval s) (next_timer s)
  | Js.Throw _ => s
  end.

(** The effect, lines 44-46: one call now, then [setInterval]. *)
Definition mount (s : Shell) : Shell :=
  let s1 := fetchStats_begin s in
  let id := next_timer s1 in
  mkShell (learnerStats s1) (requested s1) (live_timers s1 ++ [id])%list
          (Some id) (S id).

(** The browser fires interval [id], if it is alive. *)
Definition tick (id : nat) (s : Shell) : Shell :=
  if existsb (Nat.eqb id) (live_timers s) then fetchStats_begin s else s.

(** The cleanup: [clearInterval(interval)]. *)
Definition unmount (s : Shell) : Shell :=
  match interval s with
  | Some id =>
      mkShell (learnerStats s) (requested s)
              (filter (fun x => negb (Nat.eqb x id)) (live_timers s))
              None (next_timer s)
  | None => s
  end.

Inductive Event : Type :=
| Tick (id : nat)
| Settle (r : Reply).

Definition step (e : Event) (s : Shell) : Shell :=
  match e with
  | Tick id => tick id s
  | Settle r => fetchStats_resume r s
  end.

Definition run (es : list Event) (s : Shell) : Shell :=
  fold_left (fun acc e => step e acc) es s.

Definition ticks_of (id : nat) (es : list Event) : nat :=
  length (filter (fun e => match e with Tick i => Nat.eqb i id | Settle _ => false end) es).

End Learner.

(* ===================================================================== *)
(** ** Federation dashboard (ui/Federation.tsx)                          *)
(* ===================================================================== *)

Module Federation.
Local Open Scope js_scope.

Record ApiKey : Type := mkApiKey {
  key_id : Z;
  key_name : string;
  instance_type : string;
  scopes : list string;
  key_created_at : string;
  last_used_at : option string;
  rate_limit : Z;
  is_active : bool
}.

Record FederatedInstance : Type := mkInstance {
  instance_id : Z;
  instance_name : string;
  endpoint : string;
  instance_status : string;
  instance_capabilities : list string;
  sync_direction : string;
  last_sync_at : option string;
  instance_created_at : string
}.

Record SyncStatus : Type := mkSync {
  is_connected : bool;
  peer_count : Z;
  last_sync_time : option string;
  pending_packets : Z;
  sync_mode : string
}.

Record HealthStatus : Type := mkHealth {
  health_status : string;
  version : string;
  timestamp : string;
  health_capabilities : list string
}.

(** What [fetch(url).then(r => r.json())] settles to: a rejection (the
    request never completed, or the body is not JSON), the JSON value
    [null], or a JSON object, read at the fields the dashboard uses.  The
    status of the response is never looked at. *)
Inductive Fetched (A : Type) : Type :=
| Rejected
| JsonNull
| JsonObject (fields : A).
Arguments Rejected {A}.
Arguments JsonNull {A}.
Arguments JsonObject {A} fields.

(** The four replies of one [fetchAll]; [keys] and [instances] are the
    fields of those names, absent when [None]. *)
Record Replies : Type := mkReplies {
  health_reply : Fetched HealthStatus;
  keys_reply : Fetched (option (list ApiKey));
  instances_reply : Fetched (option (list FederatedInstance));
  sync_reply : Fetched SyncStatus
}.

Inductive Request : Type :=
| GetHealth
| GetKeys
| GetInstances
| GetSyncStatus
| PostKey (name instance_type : string) (scopes : list string) (rate_limit : Z)
| DeleteKey (id : Z).

(** The [useState] cells of the dashboard that these operations touch. *)
Record State : Type := mkState {
  health : option HealthStatus;
  apiKeys : list ApiKey;
  instances : list FederatedInstance;
  syncStatus : option SyncStatus;
  loading : bool;
  newKeyName : string;
  newKeyType : string;
  createdKey : option string;
  createLoading : bool
}.

(** Lines 61-72. *)
Definition initial_state : State :=
  mkState None [] [] None true "" "external" None false.

Record World : Type := mkWorld {
  cells : State;
  requests : list Request;
  console : list string
}.

Definition initial_world : World := mkWorld initial_state [] [].

Definition set_cells (f : State -> State) : Js.M World unit :=
  Js.modify (fun w => mkWorld (f (cells w)) (requests w) (console w)).

Definition request (r : Request) : Js.M World unit :=
  Js.modify (fun w => mkWorld (cells w) (requests w ++ [r])%list (console w)).

Definition console_error (line : string) : Js.M World unit :=
  Js.modify (fun w => mkWorld (cells w) (requests w) (console w ++ [line])%list).

Definition setHealth (h : option HealthStatus) : Js.M World unit :=
  set_cells (fun s => mkState h (apiKeys s) (instances s) (syncStatus s) (loading s)
                              (newKeyName s) (newKeyType s) (createdKey s)
                              (createLoading s)).
Definition setApiKeys (k : list ApiKey) : Js.M World unit :=
  set_cells (fun s => mkState (health s) k (instances s) (syncStatus s) (loading s)
                              (newKeyName s) (newKeyType s) (createdKey s)
                              (createLoading s)).
Definition setInstances (i : list FederatedInstance) : Js.M World unit :=
  set_cells (fun s => mkState (health s) (apiKeys s) i (syncStatus s) (loading s)
                              (newKeyName s) (newKeyType s) (createdKey s)
                              (createLoading s)).
Definition setSyncStatus (y : option SyncStatus) : Js.M World unit :=
  set_cells (fun s => mkState (health s) (apiKeys s) (instances s) y (loading s)
                              (newKeyName s) (newKeyType s) (createdKey s)
                              (createLoading s)).
Definition setLoading (b : bool) : Js.M World unit :=
  set_cells (fun s => mkState (health s) (apiKeys s) (instances s) (syncStatus s) b
                              (newKeyName s) (newKeyType s) (createdKey s)
                              (createLoading s)).
Definition setNewKeyName (n : string) : Js.M World unit :=
  set_cells (fun s => mkState (health s) (apiKeys s) (instances s) (syncStatus s)
                              (loading s) n (newKeyType s) (createdKey s)
                              (createLoading s)).
Definition setCreatedKey (k : option string) : Js.M World unit :=
  set_cells (fun s => mkState (health s) (apiKeys s) (instances s) (syncStatus s)
                              (loading s) (newKeyName s) (newKeyType s) k
                              (createLoading s)).
Definition setCreateLoading (b : bool) : Js.M World unit :=
  set_cells (fun s => mkState (health s) (apiKeys s) (instances s) (syncStatus s)
                              (loading s) (newKeyName s) (newKeyType s) (createdKey s)
                              b).

(** [.catch(() => null)] on a nullable cell. *)
Definition or_null {A} (f : Fetched A) : option A :=
  match f with
  | JsonObject a => Some a
  | _ => None
  end.

(** [res.field || []] where [res] came through
    [.catch(() => ({ field: [] }))]: reading a field of [null] throws. *)
Definition field_or_empty {A} (f : Fetched (option (list A))) : Js.M World (list A) :=
  match f with
  | Rejected => Js.ret []
  | JsonNull => Js.throw "TypeError: Cannot read properties of null"
  | JsonObject (Some l) => Js.ret l
  | JsonObject None => Js.ret []
  end.

(** [fetchAll], lines 81-99. *)
Definition fetchAll (r : Replies) : Js.M World unit :=
  setLoading true ;;
  Js.try_finally
    (Js.try_catch
       (request GetHealth ;; request GetKeys ;;
        request GetInstances ;; request GetSyncStatus ;;
        setHealth (or_null (health_reply r)) ;;
        keys <- field_or_empty (keys_reply r) ;;
        setApiKeys keys ;;
        insts <- field_or_empty (instances_reply r) ;;
        setInstances insts ;;
        setSyncStatus (or_null (sync_reply r)))
       (fun e => console_error ("Failed to fetch federation data: " ++ e)))
    (setLoading false).

(** The body of the reply to the key creation: [key], absent when
    [None]. *)
Definition truthy (k : option string) : bool :=
  match k with
  | Some EmptyString => false
  | Some _ => true
  | None => false
  end.

(** [createKey], lines 107-132.  [created] is what the POST settles to,
    [refreshed] the replies of the [fetchAll] it starts on success.  That
    call is not awaited; it never throws and writes none of the cells
    that [createKey] writes after it, so it is run in place. *)
Definition createKey (created : Fetched (option string)) (refreshed : Replies)
  : Js.M World unit :=
  fun w =>
    if String.eqb (newKeyName (cells w)) "" then (w, Js.Normal tt)
    else
      (setCreateLoading true ;;
       Js.try_finally
         (Js.try_catch
            (request (PostKey (newKeyName (cells w)) (newKeyType (cells w))
                              ["read"; "write"; "search"; "hybrid"; "sync"; "crawl"]
                              120) ;;
             data <- match created with
                     | Rejected => Js.throw "TypeError: Failed to fetch"
                     | JsonNull => Js.throw "TypeError: Cannot read properties of null"
                     | JsonObject k => Js.ret k
                     end ;;
             if truthy data
             then (setCreatedKey data ;; setNewKeyName "" ;; fetchAll refreshed)
             else Js.ret tt)
            (fun e => console_error ("Failed to create key: " ++ e)))
         (setCreateLoading false)) w.

(** [revokeKey], lines 134-141.  [completed] says whether the DELETE
    request completed (with any status). *)
Definition revokeKey (keyId : Z) (completed : bool) (refreshed : Replies)
  : Js.M World unit :=
  Js.try_catch
    (request (DeleteKey keyId) ;;
     (if completed then Js.ret tt else Js.throw "TypeError: Failed to fetch") ;;
     fetchAll refreshed)
    (fun e => console_error ("Failed to revoke key: " ++ e)).

(** The create button, line 326: [disabled={!newKeyName || createLoading}]. *)
Definition create_disabled (s : State) : bool :=
  String.eqb (newKeyName s) "" || createLoading s.

(** The list a [keys] or [instances] reply puts on display when it is
    not [null]. *)
Definition listed {A} (f : Fetched (option (list A))) : list A :=
  match f with
  | JsonObject (Some l) => l
  | _ => []
  end.

Definition refresh_requests : list Request :=
  [GetHealth; GetKeys; GetInstances; GetSyncStatus].

End Federation.

(* ===================================================================== *)
(** ** The search shell before hybrid mode
       (ui/App.tsx and utils/api.ts, earlier revisions)                  *)
(* ===================================================================== *)

Module AppLocal.
Import Api.

(** What the request of a search settles to for this revision: a reply
    as the later client reads it, or a response whose body is the JSON
    value [null]. *)
Inductive Reply : Type :=
| Plain (r : Api.Reply)
| NullBody (status : nat) (text : string).

(** [qsearchSearch] of the first revision of api.ts, lines 20-33: the
    parsed body is returned as it is; [None] is the value [null]. *)
Definition qsearchSearch_result (r : Reply) : Js.Completion (option SearchResponse) :=
  match r with
  | Plain (Unreachable reason) => Js.Throw reason
  | Plain (Answered status text parsed) =>
      if negb (Http.ok status)
      then Js.Throw ("qsearch API error: " ++ show_status status ++ " " ++ text)
      else
        match parsed with
        | Some data => Js.Normal (Some data)
        | None => Js.Throw "SyntaxError: Unexpected token in JSON"
        end
  | NullBody status text =>
      if negb (Http.ok status)
      then Js.Throw ("qsearch API error: " ++ show_status status ++ " " ++ text)
      else Js.Normal None
  end.

(** The [useState] cells of the earlier [App] that the search reads or
    writes.  The results are the JSON objects of the reply; the type of
    this revision names their fields [doc_id], [url], [title], [snippet]
    and [distance]. *)
Record State : Type := mkState {
  query : string;
  limit : Z;
  loading : bool;
  error : option string;
  cacheHit : option bool;
  results : list SearchResult
}.

Definition initial_state : State := mkState "" 10 false None None [].

Record World : Type := mkWorld {
  app : State;
  sent : list Request;
  inflight : list nat;
  next_ticket : nat
}.

Definition initial_world : World := mkWorld initial_state [] [] 0.

(** [onSearch] up to its [await]: the four resets and the request. *)
Definition onSearch_begin (w : World) : World :=
  let s := app w in
  mkWorld (mkState (query s) (limit s) true None None [])
          (sent w ++ [qsearchSearch_request (query s) (limit s)])%list
          (inflight w ++ [next_ticket w])%list
          (S (next_ticket w)).

(** [onSearch] from its [await] on.  On the value [null] the read
    [res.results] throws inside the [try], before any cell is written;
    the message is the engine's, one text stands for it here. *)
Definition onSearch_resume (r : Reply) (s : State) : State :=
  let after_try :=
    match qsearchSearch_result r with
    | Js.Normal (Some res) =>
        mkState (query s) (limit s) (loading s) (error s)
                (Some (match cache_hit res with Some b => b | None => false end))
                (match Api.results res with Some l => l | None => [] end)
    | Js.Normal None =>
        mkState (query s) (limit s) (loading s)
                (Some "TypeError: Cannot read properties of null (reading 'results')")
                (cacheHit s) (results s)
    | Js.Throw message =>
        mkState (query s) (limit s) (loading s) (Some message) (cacheHit s) (results s)
    end in
  mkState (query after_try) (limit after_try) false (error after_try)
          (cacheHit after_try) (results after_try).

Fixpoint take (t : nat) (ps : list nat) : option (list nat) :=
  match ps with
  | [] => None
  | p :: rest =>
      if Nat.eqb p t then Some rest
      else match take t rest with
           | Some rest' => Some (p :: rest')
           | None => None
           end
  end.

Definition onSearch_settle (t : nat) (r : Reply) (w : World) : World :=
  match take t (inflight w) with
  | Some rest => mkWorld (onSearch_resume r (app w)) (sent w) rest (next_ticket w)
  | None => w
  end.

Inductive Event : Type :=
| TypeQuery (q : string)
| PickLimit (n : Z)
| Search
| Settle (t : nat) (r : Reply).

Definition fire (e : Event) (w : World) : World :=
  match e with
  | TypeQuery q =>
      mkWorld (mkState q (limit (app w)) (loading (app w)) (error (app w))
                       (cacheHit (app w)) (results (app w)))
              (sent w) (inflight w) (next_ticket w)
  | PickLimit n =>
      mkWorld (mkState (query (app w)) n (loading (app w)) (error (app w))
                       (cacheHit (app w)) (results (app w)))
              (sent w) (inflight w) (next_ticket w)
  | Search => onSearch_begin w
  | Settle t r => onSearch_settle t r w
  end.

Definition fire_all (es : list Event) (w : World) : World :=
  fold_left (fun acc e => fire e acc) es w.

(** The events both shells can be given: the inputs of the earlier form,
    a search, and a reply as the later client reads it (any reply but a
    body that is the JSON value [null]). *)
Inductive Shared : Type :=
| SharedQuery (q : string)
| SharedLimit (n : Z)
| SharedSearch
| SharedSettle (t : nat) (r : Api.Reply).

Definition on_earlier (e : Shared) : Event :=
  match e with
  | SharedQuery q => TypeQuery q
  | SharedLimit n => PickLimit n
  | SharedSearch => Search
  | SharedSettle t r => Settle t (Plain r)
  end.

Definition on_later (e : Shared) : App.Event :=
  match e with
  | SharedQuery q => App.TypeQuery q
  | SharedLimit n => App.PickLimit n
  | SharedSearch => App.Search
  | SharedSettle t r => App.Settle t r
  end.

(** What the earlier shell has of the later one. *)
Definition earlier (w : App.World) : World :=
  mkWorld (mkState (App.query (App.app w)) (App.limit (App.app w))
                   (App.loading (App.app w)) (App.error (App.app w))
                   (App.cacheHit (App.app w)) (App.results (App.app w)))
          (App.sent w) (map App.ticket (App.inflight w)) (App.next_ticket w).

End AppLocal.

(* ===================================================================== *)
(** * Vocabulary of the statements                                       *)
(* ===================================================================== *)

(** The definitions below are not code of the client: they name the
    invariants the proofs maintain and the concrete principals, browsers
    and replies of the example runs. *)

Section SessionVocabulary.
Import Http.

(** A signed-in principal of each revision, used by the concrete runs. *)
Definition alice_oauth : OAuthSession.User :=
  OAuthSession.mkUser "u-1" "google" "alice@example.org" "Alice" "".

Definition alice : PasswordSession.User :=
  PasswordSession.mkUser "u-1" "alice@example.org" "Alice" None.

(** What the probe of the password revision does to the session, by
    outcome.  The third case is the response with a non-success status:
    no branch of [refreshUser] handles it. *)
Definition probe_effect (r : Reply PasswordSession.MeData)
           (before : option PasswordSession.User) : option PasswordSession.User :=
  match r with
  | NetworkFailure _ => None
  | Response status body =>
      if ok status then
        match body with
        | Some (PasswordSession.mkMeData true (Some u)) => Some u
        | _ => None
        end
      else before
  end.

End SessionVocabulary.

Section ThemeVocabulary.
Import Theme.

(** What holds of a mounted provider between events: the stored value is
    the preference, the resolved theme and the applied class are those of
    the preference under the live ambient value, and the provider has one
    listener exactly when the preference is [system]. *)
Record Settled (w : World) : Prop := mkSettled {
  settled_storage :
    exists items, storage (browser w) = Available items
                  /\ lookup "theme" items = Some (mode_name (theme (provider w)));
  settled_resolved :
    resolvedTheme (provider w) =
    resolveTheme (prefers_dark (browser w)) (theme (provider w));
  settled_applied :
    applied_mode w =
    Some (resolveTheme (prefers_dark (browser w)) (theme (provider w)));
  settled_listeners :
    match theme (provider w) with
    | system => exists h, cleanup (provider w) = Some h
                          /\ listeners (browser w) = [h]
    | _ => cleanup (provider w) = None /\ listeners (browser w) = []
    end
}.

(** A browser whose storage holds the preference [light], with a light
    ambient scheme, and the provider mounted in it. *)
Definition light_browser : Browser :=
  mkBrowser (Available [("theme", "light")]) false ["light"] [].

Definition light_world : World :=
  mkWorld (mkBrowser (Available [("theme", "light")]) false ["light"] [])
          (mkProvider light rlight None None 0).

(** A browser with empty storage and a light ambient scheme: the provider
    mounts with the preference [system] and its first listener. *)
Definition fresh_browser : Browser := mkBrowser (Available []) false [] [].

Definition fresh_world : World :=
  mkWorld (mkBrowser (Available [("theme", "system")]) false ["light"] [0])
          (mkProvider system rlight None (Some 0) 1).

End ThemeVocabulary.

Section SearchVocabulary.
Import Api App.

(** What the view shows once a successful reply [data] of mode [m] has
    been applied, when [a] is the value of the alpha slider. *)
Definition outcome_view (m : SearchMode) (a : Q) (data : SearchResponse)
  : StatusLine * Panel :=
  (match m with
   | hybrid => mkStatus None (Some hybrid) (Some a) None
   | local => mkStatus None (Some local) None (Some (to_Boolean (cache_hit data)))
   end,
   match results_or_empty data with
   | [] => NoResults
   | rs => Cards (map (fun r => (r, badges (Some m) r)) rs)
   end).

(** A result card and a successful local-style reply for the runs. *)
Definition hit (name : string) : SearchResult :=
  mkResult (Some name) ("https://example.org/" ++ name) name "" (Some 0.25%Q)
           None None None.

Definition reply_with (q : string) (hits : list SearchResult) : Reply :=
  Answered 200 "" (Some (mkResponse q 1 (Some false) None None (Some hits))).

(** Two [onSearch] calls, the second before the first has resumed. *)
Definition two_searches (q2 : string) (m2 : SearchMode) : list Event :=
  [Search; TypeQuery q2; PickMode m2; Search].


End SearchVocabulary.

Section DialogVocabulary.

(** What holds of the menu between events: it has its one listener on
    the document exactly when it is open. *)
Definition Tracked (m : UserMenu.Menu) : Prop :=
  exists h,
    UserMenu.cleanup m = Some h
    /\ UserMenu.doc_listeners m = if UserMenu.isOpen m then [h] else [].

End DialogVocabulary.

Section SearchVocabularyMore.
Import Api App.

(** What holds of the shell when no submission is let through while a
    search is loading: the shell is loading exactly while a search waits,
    and nothing of an earlier search is on display while it waits or
    after it has failed. *)
Definition Tidy (w : World) : Prop :=
  match inflight w with
  | [] =>
      loading (app w) = false
      /\ (error (app w) <> None ->
          results (app w) = [] /\ currentMode (app w) = None
          /\ cacheHit (app w) = None)
  | [_] =>
      loading (app w) = true /\ error (app w) = None /\ results (app w) = []
      /\ cacheHit (app w) = None /\ currentMode (app w) = None
  | _ => False
  end.

(** A request as [onSearch] may send it: to the plain search path with
    neither [alpha] nor [learn], or to the hybrid path with an [alpha] and
    [learn] true. *)
Definition well_formed_request (r : Request) : bool :=
  match body_alpha (body r), body_learn (body r) with
  | None, None => String.eqb (path r) "/search"
  | Some _, Some true => String.eqb (path r) "/hybrid"
  | _, _ => false
  end.

Definition searches_in (es : list Event) : nat :=
  length (filter (fun e => match e with Search => true | _ => false end) es).

End SearchVocabularyMore.

(* ===================================================================== *)
(** * Properties of the session store                                    *)
(* ===================================================================== *)

Section SessionFacts.
Import Http.

(** *** logout *)

(** [logout] never throws, and what it does to the session depends only
    on whether the request completed (password revision). *)
Lemma password_logout_cases be w :
  PasswordSession.logout be w =
  match PasswordSession.on_logout be with
  | Response _ _ =>
      (mkWorld (PasswordSession.mkStore None
                  (PasswordSession.loading (store w))
                  (PasswordSession.authEnabled (store w)))
               (issued w ++ [AuthLogout_POST]) (console w),
       Js.Normal tt)
  | NetworkFailure reason =>
      (mkWorld (store w) (issued w ++ [AuthLogout_POST])
               (console w ++ ["Logout failed: " ++ reason]),
       Js.Normal tt)
  end.
Proof.
  unfold PasswordSession.logout, Js.try_catch, Js.bind, fetch.
  destruct (PasswordSession.on_logout be); reflexivity.
Qed.

(** The same for the provider revision. *)
Lemma oauth_logout_cases be w :
  OAuthSession.logout be w =
  match OAuthSession.on_logout be with
  | Response _ _ =>
      (mkWorld (OAuthSession.mkStore None
                  (OAuthSession.loading (store w))
                  (OAuthSession.providers (store w))
                  (OAuthSession.authEnabled (store w)))
               (issued w ++ [AuthLogout_POST]) (console w),
       Js.Normal tt)
  | NetworkFailure reason =>
      (mkWorld (store w) (issued w ++ [AuthLogout_POST])
               (console w ++ ["Logout failed: " ++ reason]),
       Js.Normal tt)
  end.
Proof.
  unfold OAuthSession.logout, Js.try_catch, Js.bind, fetch.
  destruct (OAuthSession.on_logout be); reflexivity.
Qed.

(** C2, as stated, fails: with a signed-in session and a logout request
    that fails at the transport level, the session is still there after
    [logout] has completed, in both revisions of the store. *)
Lemma logout_unreachable_keeps_session :
  PasswordSession.user
    (store (fst (PasswordSession.logout
                   (PasswordSession.mkBackend
                      (NetworkFailure "Failed to fetch")
                      (NetworkFailure "Failed to fetch")
                      (NetworkFailure "Failed to fetch")
                      (NetworkFailure "Failed to fetch"))
                   (mkWorld (PasswordSession.mkStore (Some alice) false true)
                            [] []))))
  <> None
  /\
  OAuthSession.user
    (store (fst (OAuthSession.logout
                   (OAuthSession.mkBackend
                      (NetworkFailure "Failed to fetch")
                      (NetworkFailure "Failed to fetch")
                      (NetworkFailure "Failed to fetch"))
                   (mkWorld (OAuthSession.mkStore
                               (Some alice_oauth) false
                               (OAuthSession.mkProviders true false) true)
                            [] []))))
  <> None.
Proof. split; vm_compute; discriminate. Qed.

(** C2, amended: [logout] issues one request to the logout endpoint and
    never throws.  When the request completes, with whatever status, the
    session is cleared; when it fails at the transport level the failure
    is logged and the session is left as it was. *)
Theorem logout_clears_when_request_completes :
  (forall be w,
     let after := PasswordSession.logout be w in
     snd after = Js.Normal tt
     /\ issued (fst after) = (issued w ++ [AuthLogout_POST])%list
     /\ PasswordSession.user (store (fst after)) =
        match PasswordSession.on_logout be with
        | Response _ _ => None
        | NetworkFailure _ => PasswordSession.user (store w)
        end)
  /\
  (forall be w,
     let after := OAuthSession.logout be w in
     snd after = Js.Normal tt
     /\ issued (fst after) = (issued w ++ [AuthLogout_POST])%list
     /\ OAuthSession.user (store (fst after)) =
        match OAuthSession.on_logout be with
        | Response _ _ => None
        | NetworkFailure _ => OAuthSession.user (store w)
        end).
Proof.
  split; intros be w; cbv zeta.
  - rewrite password_logout_cases.
    destruct (PasswordSession.on_logout be); simpl; auto.
  - rewrite oauth_logout_cases.
    destruct (OAuthSession.on_logout be); simpl; auto.
Qed.

(** *** The session probe *)

Lemma password_refreshUser_user be w :
  PasswordSession.user (store (fst (PasswordSession.refreshUser be w))) =
  probe_effect (PasswordSession.on_me be) (PasswordSession.user (store w)).
Proof.
  unfold PasswordSession.refreshUser, Js.try_finally, Js.try_catch, Js.bind,
    Js.when, fetch, json, probe_effect.
  destruct (PasswordSession.on_me be) as [status body | reason]; simpl.
  - destruct (ok status); simpl; [ | reflexivity].
    destruct body as [[[] [u | ]] | ]; reflexivity.
  - reflexivity.
Qed.

(** [refreshUser] always ends with [loading = false], never throws and
    issues exactly one probe (password revision). *)
Lemma password_refreshUser_settles be w :
  let after := PasswordSession.refreshUser be w in
  snd after = Js.Normal tt
  /\ PasswordSession.loading (store (fst after)) = false
  /\ issued (fst after) = (issued w ++ [AuthMe_GET])%list.
Proof.
  unfold PasswordSession.refreshUser, Js.try_finally, Js.try_catch, Js.bind,
    Js.when, fetch, json.
  destruct (PasswordSession.on_me be) as [status body | reason]; simpl.
  - destruct (ok status); simpl; [ | auto].
    destruct body as [[[] [u | ]] | ]; simpl; auto.
  - auto.
Qed.

(** At shell start the session is absent, so there every probe outcome
    other than an authenticated payload ends anonymous. *)
Lemma password_initialize_outcome be :
  PasswordSession.user (store (fst (PasswordSession.initialize be))) =
  probe_effect (PasswordSession.on_me be) None.
Proof. unfold PasswordSession.initialize. apply password_refreshUser_user. Qed.

Lemma probe_effect_from_anonymous r u :
  probe_effect r None = Some u ->
  exists status, ok status = true
                 /\ r = Response status (Some (PasswordSession.mkMeData true (Some u))).
Proof.
  unfold probe_effect. destruct r as [status body | reason]; [ | discriminate].
  destruct (ok status) eqn:Hok; [ | discriminate].
  destruct body as [[[] [u' | ]] | ]; try discriminate.
  intros [= ->]. exists status. auto.
Qed.

(** Shell start of the password revision: one probe is issued, the call
    never throws and ends with [loading = false]; the store is
    authenticated with the payload exactly when the reply has a success
    status and the body [{authenticated: true, user}], and anonymous for
    every other outcome. *)
Theorem password_initialize_settles :
  forall be,
    let after := PasswordSession.initialize be in
    snd after = Js.Normal tt
    /\ calls_to AuthMe_GET (fst after) = 1
    /\ PasswordSession.loading (store (fst after)) = false
    /\ (forall u,
          PasswordSession.user (store (fst after)) = Some u <->
          exists status,
            ok status = true
            /\ PasswordSession.on_me be =
               Response status (Some (PasswordSession.mkMeData true (Some u)))).
Proof.
  intros be. cbv zeta.
  destruct (password_refreshUser_settles be PasswordSession.initial_world)
    as (Hc & Hl & Hi).
  unfold PasswordSession.initialize.
  split; [exact Hc | ]. split; [unfold calls_to; now rewrite Hi | ].
  split; [exact Hl | ].
  intros u. rewrite password_refreshUser_user. simpl. split.
  - apply probe_effect_from_anonymous.
  - intros (status & Hok & ->). simpl. now rewrite Hok.
Qed.

(** C3 fails on the code: a signed-in store whose probe is answered with
    a non-success status keeps its session.  The run is the password
    revision from shell start: the first probe finds nobody, the user
    logs in, and a later [refreshUser] is answered with status 500. *)
Theorem probe_failure_status_keeps_session :
  let be := PasswordSession.mkBackend
              (Response 200 (Some (PasswordSession.mkMeData false None)))
              (NetworkFailure "Failed to fetch")
              (Response 200 (Some (PasswordSession.mkCredentialData
                                     true (Some alice) None)))
              (NetworkFailure "Failed to fetch") in
  let be500 := PasswordSession.mkBackend
                 (Response 500 None)
                 (NetworkFailure "Failed to fetch")
                 (NetworkFailure "Failed to fetch")
                 (NetworkFailure "Failed to fetch") in
  let started := fst (PasswordSession.initialize be) in
  let signed_in := fst (PasswordSession.login be started) in
  let probed := fst (PasswordSession.refreshUser be500 signed_in) in
  PasswordSession.user (store started) = None
  /\ PasswordSession.user (store signed_in) = Some alice
  /\ PasswordSession.user (store probed) = Some alice
  /\ PasswordSession.is_authenticated (store probed) = true.
Proof. vm_compute. repeat split; reflexivity. Qed.

(** *** initialize, provider revision *)

(** The probe of the provider revision is guarded by the [authEnabled]
    of the closure: a closure that saw [false] never issues it. *)
Lemma oauth_refreshUser_no_probe be w :
  let after := OAuthSession.refreshUser false be w in
  snd after = Js.Normal tt
  /\ OAuthSession.loading (store (fst after)) = false
  /\ issued (fst after) = (issued w ++ [AuthProviders_GET])%list.
Proof.
  unfold OAuthSession.refreshUser, Js.try_finally, Js.try_catch, Js.bind,
    Js.when, fetch, json.
  destruct (OAuthSession.on_providers be) as [status body | reason]; simpl.
  - destruct (ok status); simpl; [ | auto].
    destruct body as [[en pr] | ]; simpl; auto.
  - auto.
Qed.

(** Whatever the backend answers, the mount effect fetches the
    capabilities once, issues no session probe, and ends with
    [loading = false] and nobody signed in. *)
Lemma oauth_initialize_never_probes be :
  let w := fst (OAuthSession.initialize be) in
  calls_to AuthProviders_GET w = 1
  /\ calls_to AuthMe_GET w = 0
  /\ OAuthSession.loading (store w) = false
  /\ OAuthSession.user (store w) = None.
Proof.
  unfold OAuthSession.initialize, OAuthSession.refreshUser, Js.try_finally,
    Js.try_catch, Js.bind, Js.when, fetch, json, calls_to. simpl.
  destruct (OAuthSession.on_providers be) as [status body | reason]; simpl.
  - destruct (ok status); simpl; [ | auto].
    destruct body as [[en pr] | ]; simpl; auto.
  - auto.
Qed.

(** C4 fails on the code: the backend reports an enabled integration and
    would answer the probe with an authenticated user, yet the
    initialization issues no probe at all and settles anonymous.  The
    store has recorded [authEnabled = true] for the next render only. *)
Theorem initialize_enabled_issues_no_probe :
  let be := OAuthSession.mkBackend
              (Response 200 (Some (OAuthSession.mkProvidersData
                                     (Some true)
                                     (Some (OAuthSession.mkProviders true false)))))
              (Response 200 (Some (OAuthSession.mkMeData true (Some alice_oauth))))
              (Response 200 (Some tt)) in
  let w := fst (OAuthSession.initialize be) in
  calls_to AuthProviders_GET w = 1
  /\ OAuthSession.authEnabled (store w) = true
  /\ calls_to AuthMe_GET w = 0
  /\ OAuthSession.user (store w) = None
  /\ OAuthSession.loading (store w) = false.
Proof. vm_compute. repeat split; reflexivity. Qed.

(** A [refreshUser] closure of a later render, which sees the recorded
    [authEnabled = true], does issue the probe and signs the user in. *)
Lemma oauth_later_refreshUser_probes :
  let be := OAuthSession.mkBackend
              (Response 200 (Some (OAuthSession.mkProvidersData
                                     (Some true)
                                     (Some (OAuthSession.mkProviders true false)))))
              (Response 200 (Some (OAuthSession.mkMeData true (Some alice_oauth))))
              (Response 200 (Some tt)) in
  let w := fst (OAuthSession.initialize be) in
  let w' := fst (OAuthSession.refreshUser (OAuthSession.authEnabled (store w)) be w) in
  calls_to AuthMe_GET w' = 1
  /\ OAuthSession.user (store w') = Some alice_oauth.
Proof. vm_compute. split; reflexivity. Qed.

End SessionFacts.

(* ===================================================================== *)
(** * Properties of the theme resolver                                   *)
(* ===================================================================== *)

Section ThemeFacts.
Import Theme.

(** *** Storage and class list *)

Lemma lookup_assign key value items :
  lookup key (assign key value items) = Some value.
Proof.
  induction items as [ | [k v] rest IH]; simpl.
  - now rewrite String.eqb_refl.
  - destruct (String.eqb k key) eqn:E; simpl; rewrite E; auto.
Qed.

Lemma existsb_classList_remove c tokens cl :
  existsb (String.eqb c) (classList_remove tokens cl) =
  existsb (String.eqb c) cl && negb (existsb (String.eqb c) tokens).
Proof.
  unfold classList_remove.
  induction cl as [ | a rest IH]; simpl; [reflexivity | ].
  destruct (String.eqb c a) eqn:E.
  - apply String.eqb_eq in E. subst a.
    destruct (existsb (String.eqb c) tokens) eqn:T; simpl.
    + rewrite IH. now destruct (existsb (String.eqb c) rest).
    + now rewrite String.eqb_refl.
  - destruct (existsb (String.eqb a) tokens); simpl; [ | rewrite E]; exact IH.
Qed.

Lemma existsb_classList_add c token cl :
  existsb (String.eqb c) (classList_add token cl) =
  existsb (String.eqb c) cl || String.eqb c token.
Proof.
  unfold classList_add.
  destruct (existsb (String.eqb token) cl) eqn:T.
  - destruct (String.eqb c token) eqn:E.
    + apply String.eqb_eq in E. subst c. now rewrite T.
    + now rewrite orb_false_r.
  - rewrite existsb_app. simpl. now rewrite orb_false_r.
Qed.

(** After [applyThemeClass] the document element carries the class of the
    resolved mode and not the other one, whatever it carried before. *)
Lemma applyThemeClass_applied resolved cl :
  existsb (String.eqb "light") (applyThemeClass resolved cl) =
    match resolved with rlight => true | rdark => false end
  /\ existsb (String.eqb "dark") (applyThemeClass resolved cl) =
    match resolved with rlight => false | rdark => true end.
Proof.
  unfold applyThemeClass.
  rewrite !existsb_classList_add, !existsb_classList_remove.
  destruct resolved; simpl; rewrite !andb_false_r; auto.
Qed.

Lemma applied_mode_after_apply st pd cl ls p resolved :
  applied_mode (mkWorld (mkBrowser st pd (applyThemeClass resolved cl) ls) p)
  = Some resolved.
Proof.
  unfold applied_mode, has_class; cbn [classList browser].
  destruct (applyThemeClass_applied resolved cl) as [-> ->].
  now destruct resolved.
Qed.

Lemma remove_listener_single h : remove_listener h [h] = [].
Proof. unfold remove_listener; simpl. now rewrite Nat.eqb_refl. Qed.

(** *** The startup preference *)

(** With readable storage the initializer returns the stored value when
    it is one of the three literals, and [system] otherwise. *)
Lemma initial_theme_available items :
  initial_theme (Available items) = Js.Normal (parse_saved (lookup "theme" items)).
Proof. reflexivity. Qed.

Lemma parse_saved_unrecognized saved :
  saved <> Some "light" -> saved <> Some "dark" ->
  parse_saved saved = system.
Proof.
  intros Hl Hd. destruct saved as [s | ]; simpl; [ | reflexivity].
  destruct (String.eqb s "light") eqn:El.
  - apply String.eqb_eq in El. subst. now elim Hl.
  - destruct (String.eqb s "dark") eqn:Ed.
    + apply String.eqb_eq in Ed. subst. now elim Hd.
    + now destruct (String.eqb s "system").
Qed.

(** With readable storage, empty or holding a value outside the three
    literals, the provider mounts with the preference [system] and
    resolves from the ambient preference alone. *)
Theorem unrecognized_saved_theme_is_system :
  forall items pd cl,
    lookup "theme" items <> Some "light" ->
    lookup "theme" items <> Some "dark" ->
    exists w,
      mount (mkBrowser (Available items) pd cl []) = Js.Normal w
      /\ getPreference w = system
      /\ resolvedTheme (provider w) = (if pd then rdark else rlight)
      /\ applied_mode w = Some (if pd then rdark else rlight).
Proof.
  intros items pd cl Hl Hd.
  unfold mount. cbn [storage]. rewrite initial_theme_available.
  rewrite (parse_saved_unrecognized _ Hl Hd).
  unfold persist_effect, subscribe_effect; simpl.
  eexists. split; [reflexivity | ]. unfold getPreference; simpl.
  split; [reflexivity | ]. split; [now destruct pd | ].
  rewrite applied_mode_after_apply. now destruct pd.
Qed.

(** A stored value outside the three literals, dark ambient scheme. *)
Lemma unrecognized_saved_theme_is_system_witness :
  exists w,
    mount (mkBrowser (Available [("theme", "sepia")]) true ["dark"; "app"] [])
    = Js.Normal w
    /\ getPreference w = system
    /\ resolvedTheme (provider w) = rdark
    /\ applied_mode w = Some rdark.
Proof.
  apply (unrecognized_saved_theme_is_system [("theme", "sepia")] true ["dark"; "app"]);
    discriminate.
Defined.

(** C6 fails on the code: when the storage throws on read, the [useState]
    initializer of [ThemeProvider] has no [try] around
    [localStorage.getItem], so the exception leaves the initializer and the
    provider does not mount; no preference, [system] or other, is
    returned. *)
Theorem initial_theme_throws_when_storage_disabled :
  initial_theme Disabled = Js.Throw "SecurityError"
  /\ mount (mkBrowser Disabled true [] []) = Js.Throw "SecurityError"
  /\ mount (mkBrowser Disabled false [] []) = Js.Throw "SecurityError".
Proof. repeat split; reflexivity. Qed.

(** The pre-render script of the entry point reads the same key of the
    same storage inside a [try]: with the storage disabled it leaves the
    page as it is and does not throw. *)
Lemma apply_before_render_ignores_disabled_storage pd cl ls :
  Main.apply_before_render (mkBrowser Disabled pd cl ls) = mkBrowser Disabled pd cl ls.
Proof. reflexivity. Qed.

(** *** The settled provider *)

(** The commit of a render whose theme is [t]: old cleanup, first effect,
    second effect. *)
Lemma commit_settles items pd cl ls t rt q cu nh :
  match cu with Some h => ls = [h] | None => ls = [] end ->
  exists w',
    match persist_effect
            (run_cleanup (mkWorld (mkBrowser (Available items) pd cl ls)
                                  (mkProvider t rt q cu nh))) with
    | Js.Normal w1 => Js.Normal (subscribe_effect w1)
    | Js.Throw e => Js.Throw e
    end = Js.Normal w'
    /\ Settled w'
    /\ theme (provider w') = t
    /\ queued (provider w') = q
    /\ prefers_dark (browser w') = pd.
Proof.
  intros Hls.
  assert (Hrm : listeners (browser (run_cleanup
                 (mkWorld (mkBrowser (Available items) pd cl ls)
                          (mkProvider t rt q cu nh)))) = []).
  { unfold run_cleanup; simpl. destruct cu as [h | ]; simpl; subst ls;
      [apply remove_listener_single | reflexivity]. }
  unfold run_cleanup in *; simpl in *.
  destruct cu as [h | ]; simpl in *; rewrite ?Hrm; subst.
  all: unfold persist_effect, subscribe_effect; simpl.
  all: eexists; split; [reflexivity | ].
  all: destruct t; simpl.
  all: split; [ | auto].
  all: constructor; simpl;
    [ eexists; split; [reflexivity | apply lookup_assign]
    | reflexivity
    | apply applied_mode_after_apply
    | try (eexists; split; reflexivity); try (split; reflexivity) ].
Qed.

Lemma mount_settles b w :
  listeners b = [] -> mount b = Js.Normal w -> Settled w.
Proof.
  destruct b as [st pd cl ls]; simpl. intros ->.
  unfold mount. simpl.
  destruct st as [items | ]; simpl; [ | discriminate].
  destruct (commit_settles items pd cl [] (parse_saved (lookup "theme" items))
              (resolveTheme pd (parse_saved (lookup "theme" items))) None None 0
              eq_refl) as (w' & Hrun & Hs & _).
  unfold run_cleanup in Hrun; simpl in Hrun.
  intros Hm. rewrite Hrun in Hm. now injection Hm as <-.
Qed.

Lemma setTheme_settled t w : Settled w -> Settled (setTheme t w).
Proof.
  intros [Hst Hr Ha Hl]. destruct w as [b p]; destruct p. now constructor.
Qed.

Lemma render_settles w :
  Settled w ->
  exists w', render w = Js.Normal w' /\ Settled w'
             /\ theme (provider w') =
                match queued (provider w) with
                | Some t => t
                | None => theme (provider w)
                end
             /\ queued (provider w') = None
             /\ prefers_dark (browser w') = prefers_dark (browser w).
Proof.
  intros [Hst Hr Ha Hl].
  destruct w as [[st pd cl ls] [th rt q cu nh]]; simpl in *.
  destruct Hst as (items & -> & Hitems).
  unfold render; simpl.
  destruct q as [t | ].
  - destruct (ThemeMode_eqb t th) eqn:E.
    + assert (t = th) as -> by (destruct t, th; simpl in E; congruence).
      eexists; split; [reflexivity | ].
      split; [ | auto]. constructor; simpl; eauto.
    + destruct (commit_settles items pd cl ls t rt None cu nh) as (w' & Hrun & Hs & Ht & Hq & Hpd).
      { destruct th; simpl in Hl.
        - destruct Hl as [-> ->]; reflexivity.
        - destruct Hl as [-> ->]; reflexivity.
        - destruct Hl as (h & -> & ->); reflexivity. }
      exists w'. auto.
  - eexists; split; [reflexivity | ].
    split; [ | auto]. constructor; simpl; eauto.
Qed.

Lemma ambient_change_settled d w :
  Settled w -> Settled (ambient_change d w).
Proof.
  intros [Hst Hr Ha Hl].
  destruct w as [[st pd cl ls] [th rt q cu nh]]; simpl in *.
  unfold ambient_change; simpl.
  destruct th; simpl in *.
  - destruct Hl as [-> ->]; simpl. constructor; simpl; auto.
  - destruct Hl as [-> ->]; simpl. constructor; simpl; auto.
  - destruct Hl as (h & -> & ->); simpl. unfold handler; simpl.
    constructor; simpl; eauto using applied_mode_after_apply.
Qed.

Lemma step_settles e w :
  Settled w -> exists w', step e w = Js.Normal w' /\ Settled w'.
Proof.
  intros Hs. destruct e as [t | | d]; simpl.
  - eauto using setTheme_settled.
  - destruct (render_settles w Hs) as (w' & H1 & H2 & _). eauto.
  - eauto using ambient_change_settled.
Qed.

(** No sequence of events stops a mounted provider, and the provider is
    settled after each of them. *)
Lemma run_settles es : forall w,
  Settled w -> exists w', run es w = Js.Normal w' /\ Settled w'.
Proof.
  induction es as [ | e rest IH]; intros w Hs; simpl.
  - eauto.
  - destruct (step_settles e w Hs) as (w1 & -> & Hs1). auto.
Qed.

(** *** Concrete runs *)

Example mount_light_browser : mount light_browser = Js.Normal light_world.
Proof. reflexivity. Qed.

Example mount_fresh_browser : mount fresh_browser = Js.Normal fresh_world.
Proof. reflexivity. Qed.

(** Leaving [system] removes the listener; coming back registers a new
    one; the ambient change in between reaches nobody. *)
Example switch_away_and_back :
  run [SetTheme dark; Render] fresh_world =
    Js.Normal (mkWorld (mkBrowser (Available [("theme", "dark")]) false ["dark"] [])
                       (mkProvider dark rdark None None 1))
  /\ run [SetTheme dark; Render; AmbientChange true; SetTheme system; Render]
         fresh_world =
    Js.Normal (mkWorld (mkBrowser (Available [("theme", "system")]) true ["dark"] [1])
                       (mkProvider system rdark None (Some 1) 2)).
Proof. split; reflexivity. Qed.

(** *** setPreference *)




(** *** The ambient-change subscription *)



End ThemeFacts.

(* ===================================================================== *)
(** * Properties of the search orchestrator                              *)
(* ===================================================================== *)

Section SearchFacts.
Import Api App.

(** *** Requests *)

(** C10: called without blend weight and learn flag, [qsearchHybrid]
    posts to the hybrid path with [alpha] 0.5 and [learn] true, next to the
    query text and the limit it was given; each default also applies when
    only that argument is left out. *)
Theorem qsearchHybrid_defaults :
  forall q n,
    qsearchHybrid_request q n None None =
      mkRequest "/hybrid" (mkBody q n (Some 0.5%Q) (Some true))
    /\ (forall a, qsearchHybrid_request q n (Some a) None =
                  mkRequest "/hybrid" (mkBody q n (Some a) (Some true)))
    /\ (forall l, qsearchHybrid_request q n None (Some l) =
                  mkRequest "/hybrid" (mkBody q n (Some 0.5%Q) (Some l))).
Proof. intros q n. repeat split. Qed.

(** The request of the selected mode is the last one sent by [onSearch]. *)
Lemma onSearch_begin_sent w :
  sent (onSearch_begin w) =
  (sent w ++
   [match searchMode (app w) with
    | hybrid => mkRequest "/hybrid"
                  (mkBody (query (app w)) (limit (app w))
                          (Some (alpha (app w))) (Some true))
    | local => mkRequest "/search"
                 (mkBody (query (app w)) (limit (app w)) None None)
    end])%list.
Proof. unfold onSearch_begin; simpl. now destruct (searchMode (app w)). Qed.

(** *** Replies *)

Lemma qsearchHybrid_result_ok status text data :
  Http.ok status = true ->
  qsearchHybrid_result (Answered status text (Some data)) = Js.Normal data.
Proof. intros H. unfold qsearchHybrid_result. now rewrite H. Qed.

Lemma qsearchSearch_result_ok status text data :
  Http.ok status = true ->
  qsearchSearch_result (Answered status text (Some data)) =
  Js.Normal (mkResponse (resp_query data) (resp_count data) (cache_hit data)
                        (Some local) (resp_alpha data) (Api.results data)).
Proof. intros H. unfold qsearchSearch_result. now rewrite H. Qed.

(** A successful reply resumed on a state without error: the view is the
    outcome of that reply, in the mode of the branch that awaited it. *)
Lemma onSearch_resume_view br status text data s :
  Http.ok status = true ->
  error s = None ->
  let s' := onSearch_resume br (Answered status text (Some data)) s in
  visible s' = outcome_view br (alpha s) data
  /\ results s' = results_or_empty data
  /\ currentMode s' = Some br
  /\ loading s' = false
  /\ error s' = None
  /\ alpha s' = alpha s.
Proof.
  intros Hok Herr. unfold onSearch_resume.
  destruct br.
  - rewrite (qsearchSearch_result_ok _ _ _ Hok).
    unfold visible, status_line, panel, outcome_view, results_or_empty; simpl.
    rewrite Herr. repeat split.
  - rewrite (qsearchHybrid_result_ok _ _ _ Hok).
    unfold visible, status_line, panel, outcome_view; simpl.
    rewrite Herr. repeat split.
Qed.

Lemma ticket_differs n : Nat.eqb n (S n) = false.
Proof. apply Nat.eqb_neq. lia. Qed.

(** *** One search and its reply *)

(** A local search posts the query text and the limit to the plain search
    path; its successful reply puts the results on display as they came,
    in their order, with the cache flag of the reply coerced to a boolean
    (false when absent). *)
Theorem local_search_keeps_order_and_cache_flag :
  forall w status text data,
    searchMode (app w) = local ->
    inflight w = [] ->
    Http.ok status = true ->
    let w1 := onSearch_begin w in
    let w2 := onSearch_settle (next_ticket w) (Answered status text (Some data)) w1 in
    sent w1 =
      (sent w ++ [mkRequest "/search"
                    (mkBody (query (app w)) (limit (app w)) None None)])%list
    /\ results (app w2) = match Api.results data with Some l => l | None => [] end
    /\ cacheHit (app w2) =
       Some (match cache_hit data with Some b => b | None => false end)
    /\ status_line (app w2) =
       mkStatus None (Some local) None
                (Some (match cache_hit data with Some b => b | None => false end))
    /\ loading (app w2) = false.
Proof.
  intros w status text data Hmode Hin Hok. cbv zeta.
  split; [rewrite onSearch_begin_sent, Hmode; reflexivity | ].
  destruct w as [s sn fl nt]. simpl in Hmode, Hin. subst fl.
  unfold onSearch_settle, onSearch_begin.
  cbn [app sent inflight next_ticket take_pending ticket branch List.app].
  rewrite Nat.eqb_refl.
  cbn [app sent inflight next_ticket take_pending ticket branch].
  rewrite Hmode.
  unfold onSearch_resume. rewrite (qsearchSearch_result_ok _ _ _ Hok).
  unfold status_line. simpl. repeat split.
Qed.

(** The local scenario: two results, cache hit. *)
Lemma local_search_keeps_order_and_cache_flag_witness :
  let w := fire_all [TypeQuery "quantum entanglement"; PickLimit 5; PickMode local]
                    initial_world in
  let data := mkResponse "quantum entanglement" 2 (Some true) None None
                         (Some [hit "a"; hit "b"]) in
  let w1 := onSearch_begin w in
  let w2 := onSearch_settle (next_ticket w) (Answered 200 "" (Some data)) w1 in
  sent w1 =
    (sent w ++ [mkRequest "/search"
                  (mkBody (query (app w)) (limit (app w)) None None)])%list
  /\ results (app w2) = match Api.results data with Some l => l | None => [] end
  /\ cacheHit (app w2) =
     Some (match cache_hit data with Some b => b | None => false end)
  /\ status_line (app w2) =
     mkStatus None (Some local) None
              (Some (match cache_hit data with Some b => b | None => false end))
  /\ loading (app w2) = false.
Proof.
  apply (local_search_keeps_order_and_cache_flag
           (fire_all [TypeQuery "quantum entanglement"; PickLimit 5; PickMode local]
                     initial_world)
           200 ""
           (mkResponse "quantum entanglement" 2 (Some true) None None
                       (Some [hit "a"; hit "b"])));
    reflexivity.
Defined.

(** A search whose reply has a non-success status ends with the error
    message of its mode, made of the status code and the response text; a
    search whose request never completed ends with the reason of the
    failure.  Either way the shell stops loading and shows no results and
    no mode. *)
Theorem failed_search_reports_the_error :
  forall w status text parsed reason,
    inflight w = [] ->
    Http.ok status = false ->
    let w1 := onSearch_begin w in
    let refused := app (onSearch_settle (next_ticket w) (Answered status text parsed) w1) in
    let down := app (onSearch_settle (next_ticket w) (Unreachable reason) w1) in
    error refused =
      Some ((match searchMode (app w) with
             | hybrid => "qsearch hybrid API error: "
             | local => "qsearch API error: "
             end) ++ show_status status ++ " " ++ text)
    /\ error down = Some reason
    /\ (results refused = [] /\ currentMode refused = None /\ loading refused = false)
    /\ (results down = [] /\ currentMode down = None /\ loading down = false).
Proof.
  intros w status text parsed reason Hin Hok. cbv zeta.
  destruct w as [s sn fl nt]. simpl in Hin. subst fl.
  unfold onSearch_settle, onSearch_begin.
  cbn [app sent inflight next_ticket take_pending ticket branch List.app].
  rewrite Nat.eqb_refl.
  cbn [app sent inflight next_ticket take_pending ticket branch].
  unfold onSearch_resume, qsearchSearch_result, qsearchHybrid_result.
  rewrite Hok. destruct (searchMode s); simpl; repeat split.
Qed.

(** A hybrid search refused with status 503, and one never answered. *)
Lemma failed_search_reports_the_error_witness :
  let w := initial_world in
  let w1 := onSearch_begin w in
  let refused := app (onSearch_settle (next_ticket w)
                        (Answered 503 "busy" None) w1) in
  let down := app (onSearch_settle (next_ticket w) (Unreachable "Failed to fetch") w1) in
  error refused =
    Some ((match searchMode (app w) with
           | hybrid => "qsearch hybrid API error: "
           | local => "qsearch API error: "
           end) ++ show_status 503 ++ " " ++ "busy")
  /\ error down = Some "Failed to fetch"
  /\ (results refused = [] /\ currentMode refused = None /\ loading refused = false)
  /\ (results down = [] /\ currentMode down = None /\ loading down = false).
Proof.
  apply (failed_search_reports_the_error initial_world 503 "busy" None "Failed to fetch");
    reflexivity.
Defined.

Example refused_hybrid_search_message :
  error (app (fire_all [Search; Settle 0 (Answered 503 "busy" None)] initial_world))
  = Some "qsearch hybrid API error: 503 busy".
Proof. reflexivity. Qed.

(** *** Overlapping searches *)

(** C1, as stated, fails: [onSearch] is called for the query "first" and,
    before its reply, for the query "second"; the reply of the second
    arrives, then the reply of the first.  After both, the results on
    display are those of the first query, not of the most recent one. *)
Lemma stale_reply_overwrites_the_newer_search :
  let w2 := fire_all (TypeQuery "first" :: PickMode local :: two_searches "second" local)
                     initial_world in
  let w4 := fire_all [Settle 1 (reply_with "second" [hit "b"]);
                      Settle 0 (reply_with "first" [hit "a"])] w2 in
  map body_query (map body (sent w4)) = ["first"; "second"]
  /\ inflight w4 = []
  /\ query (app w4) = "second"
  /\ results (app w4) = [hit "a"]
  /\ results (app w4) <> [hit "b"].
Proof. vm_compute. repeat split; try reflexivity. discriminate. Qed.

(** C1, amended: [onSearch] applies every successful reply when it
    arrives, so after two overlapping searches have both resumed the view
    (results, their badges and the status line) is the outcome of the
    reply that arrived last: the second query's when its reply is the
    later one, the first query's otherwise. *)
Theorem last_arrived_reply_is_the_visible_one :
  forall w q2 m2 status1 text1 data1 status2 text2 data2,
    inflight w = [] ->
    Http.ok status1 = true ->
    Http.ok status2 = true ->
    let m1 := searchMode (app w) in
    let t1 := next_ticket w in
    let t2 := S (next_ticket w) in
    let r1 := Answered status1 text1 (Some data1) in
    let r2 := Answered status2 text2 (Some data2) in
    let w2 := fire_all (two_searches q2 m2) w in
    let second_last := fire_all [Settle t1 r1; Settle t2 r2] w2 in
    let first_last := fire_all [Settle t2 r2; Settle t1 r1] w2 in
    (inflight second_last = []
     /\ visible (app second_last) = outcome_view m2 (alpha (app w)) data2)
    /\ (inflight first_last = []
        /\ visible (app first_last) = outcome_view m1 (alpha (app w)) data1).
Proof.
  intros w q2 m2 status1 text1 data1 status2 text2 data2 Hin Hok1 Hok2.
  destruct w as [s sn fl nt]. simpl in Hin. subst fl. cbv zeta.
  unfold two_searches, fire_all.
  cbn [fold_left fire].
  unfold onSearch_settle, onSearch_begin, on_app, setQuery, setSearchMode.
  cbn [app sent inflight next_ticket take_pending ticket branch List.app
       query limit loading error cacheHit results searchMode alpha currentMode].
  rewrite !Nat.eqb_refl, ?ticket_differs.
  cbn [app sent inflight next_ticket take_pending ticket branch].
  rewrite ?Nat.eqb_refl.
  cbn [app sent inflight next_ticket take_pending ticket branch].
  set (s2 := mkState q2 (limit s) true None None [] m2 (alpha s) None).
  split.
  - split; [reflexivity | ].
    destruct (onSearch_resume_view (searchMode s) status1 text1 data1 s2 Hok1 eq_refl)
      as (_ & _ & _ & _ & Herr & Halpha).
    destruct (onSearch_resume_view m2 status2 text2 data2 _ Hok2 Herr) as (Hv & _).
    rewrite Hv, Halpha. reflexivity.
  - split; [reflexivity | ].
    destruct (onSearch_resume_view m2 status2 text2 data2 s2 Hok2 eq_refl)
      as (_ & _ & _ & _ & Herr & Halpha).
    destruct (onSearch_resume_view (searchMode s) status1 text1 data1 _ Hok1 Herr)
      as (Hv & _).
    rewrite Hv, Halpha. reflexivity.
Qed.

(** The amended C1 at a shell with the query "first" typed: a hybrid
    search for it, then a local search for "second". *)
Lemma last_arrived_reply_is_the_visible_one_witness :
  let w := fire_all [TypeQuery "first"] initial_world in
  let r1 := Answered 200 "" (Some (mkResponse "first" 1 None None None (Some [hit "a"]))) in
  let r2 := Answered 200 "" (Some (mkResponse "second" 1 (Some true) None None
                                              (Some [hit "b"]))) in
  let w2 := fire_all (two_searches "second" local) w in
  let second_last := fire_all [Settle 0 r1; Settle 1 r2] w2 in
  let first_last := fire_all [Settle 1 r2; Settle 0 r1] w2 in
  (inflight second_last = []
   /\ visible (app second_last) =
      outcome_view local (alpha (app w))
        (mkResponse "second" 1 (Some true) None None (Some [hit "b"])))
  /\ (inflight first_last = []
      /\ visible (app first_last) =
         outcome_view hybrid (alpha (app w))
           (mkResponse "first" 1 None None None (Some [hit "a"]))).
Proof.
  apply (last_arrived_reply_is_the_visible_one
           (fire_all [TypeQuery "first"] initial_world) "second" local
           200 "" (mkResponse "first" 1 None None None (Some [hit "a"]))
           200 "" (mkResponse "second" 1 (Some true) None None (Some [hit "b"])));
    reflexivity.
Defined.

(** *** Provenance by mode *)






(** *** The blend weight on display *)

(** C8, as stated, fails: a hybrid search is sent with alpha 0.3; after its
    reply has been applied the slider is moved to 0.8; the status line of
    that outcome now shows 0.8, a value later than the one sent. *)
Lemma shown_alpha_is_the_slider_not_the_weight_sent :
  let w := form_fire_all [SlideAlpha 0.3%Q; TypeQuery "entanglement"; Search;
                          Settle 0 (reply_with "entanglement" [hit "a"]);
                          SlideAlpha 0.8%Q] initial_world in
  map body_alpha (map body (sent w)) = [Some 0.3%Q]
  /\ results (app w) = [hit "a"]
  /\ shown_mode (status_line (app w)) = Some hybrid
  /\ shown_alpha (status_line (app w)) = Some 0.8%Q
  /\ shown_alpha (status_line (app w)) <> Some 0.3%Q.
Proof. vm_compute. repeat split; try reflexivity. discriminate. Qed.

(** C8, amended: a hybrid search posts the query text, the limit, [alpha]
    equal to the blend weight of that moment and [learn] true to the
    hybrid path.  When its successful reply has been applied, the results
    are those of the reply and the status line shows the current value of
    the alpha slider: the weight sent as long as the slider has not moved,
    and the new value once it has.  A result without [hybrid_score] shows
    the number 0 in its score badge. *)
Theorem hybrid_search_sends_weight_and_shows_slider :
  forall w status text data,
    searchMode (app w) = hybrid ->
    inflight w = [] ->
    Http.ok status = true ->
    let w1 := onSearch_begin w in
    let w2 := onSearch_settle (next_ticket w) (Answered status text (Some data)) w1 in
    sent w1 =
      (sent w ++ [mkRequest "/hybrid"
                    (mkBody (query (app w)) (limit (app w))
                            (Some (alpha (app w))) (Some true))])%list
    /\ results (app w2) = results_or_empty data
    /\ shown_mode (status_line (app w2)) = Some hybrid
    /\ shown_alpha (status_line (app w2)) = Some (alpha (app w))
    /\ (forall a, shown_alpha (status_line (app (fire (SlideAlpha a) w2))) = Some a)
    /\ (forall r, hybrid_score r = None ->
                  badges (currentMode (app w2)) r =
                  HybridBadges (serper_position r)
                               (number_or_zero (basin_distance r)) 0%Q).
Proof.
  intros w status text data Hmode Hin Hok. cbv zeta.
  split; [rewrite onSearch_begin_sent, Hmode; reflexivity | ].
  destruct w as [s sn fl nt]. simpl in Hmode, Hin. subst fl.
  unfold onSearch_settle, onSearch_begin.
  cbn [app sent inflight next_ticket take_pending ticket branch List.app].
  rewrite Nat.eqb_refl.
  cbn [app sent inflight next_ticket take_pending ticket branch].
  rewrite Hmode.
  unfold onSearch_resume. rewrite (qsearchHybrid_result_ok _ _ _ Hok).
  unfold status_line, badges. simpl.
  repeat split; try reflexivity.
  intros r ->. reflexivity.
Qed.

(** The amended C8 at the initial shell with the slider at 0.3. *)
Lemma hybrid_search_sends_weight_and_shows_slider_witness :
  let w := on_app (setAlpha 0.3%Q) initial_world in
  let data := mkResponse "" 1 None None None (Some [hit "a"]) in
  let w1 := onSearch_begin w in
  let w2 := onSearch_settle (next_ticket w) (Answered 200 "" (Some data)) w1 in
  sent w1 =
    (sent w ++ [mkRequest "/hybrid"
                  (mkBody (query (app w)) (limit (app w))
                          (Some (alpha (app w))) (Some true))])%list
  /\ results (app w2) = results_or_empty data
  /\ shown_mode (status_line (app w2)) = Some hybrid
  /\ shown_alpha (status_line (app w2)) = Some (alpha (app w))
  /\ (forall a, shown_alpha (status_line (app (fire (SlideAlpha a) w2))) = Some a)
  /\ (forall r, hybrid_score r = None ->
                badges (currentMode (app w2)) r =
                HybridBadges (serper_position r)
                             (number_or_zero (basin_distance r)) 0%Q).
Proof.
  apply (hybrid_search_sends_weight_and_shows_slider
           (on_app (setAlpha 0.3%Q) initial_world) 200 ""
           (mkResponse "" 1 None None None (Some [hit "a"])));
    reflexivity.
Defined.

End SearchFacts.

(* ===================================================================== *)
(** * Properties of the API base path                                    *)
(* ===================================================================== *)

Section UrlFacts.
Import Url.

Lemma strip_trailing_slashes_spec s :
  exists n,
    s = strip_trailing_slashes s ++ slashes n
    /\ last_char (strip_trailing_slashes s) <> Some "/"%char
    /\ (strip_trailing_slashes s = "" -> s = slashes n).
Proof.
  induction s as [ | c rest (n & Hrest & Hlast & Hempty)]; simpl.
  - exists 0. repeat split; auto. discriminate.
  - destruct (strip_trailing_slashes rest) as [ | a kept] eqn:E.
    + specialize (Hempty eq_refl).
      destruct (Ascii.eqb c "/") eqn:Ec.
      * apply Ascii.eqb_eq in Ec. subst c. exists (S n). simpl.
        rewrite <- Hempty. repeat split; auto; discriminate.
      * exists n. simpl. rewrite <- Hempty. repeat split; try discriminate.
        intros [= ->]. now rewrite Ascii.eqb_refl in Ec.
    + exists n. simpl in Hrest. rewrite Hrest at 1. simpl.
      repeat split; try discriminate. exact Hlast.
Qed.

Lemma strip_trailing_slashes_fixed s :
  last_char s <> Some "/"%char -> strip_trailing_slashes s = s.
Proof.
  induction s as [ | c rest IH]; simpl; [reflexivity | ].
  destruct rest as [ | a rest'].
  - simpl. intros H. destruct (Ascii.eqb c "/") eqn:Ec; [ | reflexivity].
    apply Ascii.eqb_eq in Ec. subst c. now elim H.
  - intros H. rewrite (IH H). reflexivity.
Qed.

(** [apiBase] removes the trailing slashes of the configured base and
    nothing else: the configured value is the result followed by slashes
    only, the result does not end in a slash, and a result is left
    unchanged when it is configured again. *)
Theorem apiBase_strips_exactly_the_trailing_slashes :
  forall env,
    (exists n, auth_apiBase env = apiBase env ++ slashes n)
    /\ last_char (apiBase env) <> Some "/"%char
    /\ apiBase (Some (apiBase env)) = apiBase env.
Proof.
  intros env.
  assert (H : forall base,
             (exists n, base = apiBase (Some base) ++ slashes n)
             /\ last_char (apiBase (Some base)) <> Some "/"%char
             /\ apiBase (Some base) = strip_trailing_slashes base).
  { intros base. destruct base as [ | c rest].
    - simpl. split; [exists 0; reflexivity | ]. split; [discriminate | reflexivity].
    - unfold apiBase.
      destruct (strip_trailing_slashes_spec (String c rest)) as (n & H1 & H2 & _).
      split; [exists n; exact H1 | ]. split; [exact H2 | reflexivity]. }
  destruct env as [base | ]; simpl auth_apiBase.
  - destruct (H base) as (Hn & Hl & Hs).
    split; [exact Hn | ]. split; [exact Hl | ].
    destruct (H (apiBase (Some base))) as (_ & _ & ->).
    apply strip_trailing_slashes_fixed, Hl.
  - simpl. split; [exists 0; reflexivity | ]. split; [discriminate | reflexivity].
Qed.

Example apiBase_examples :
  apiBase (Some "https://api.example.org///") = "https://api.example.org"
  /\ apiBase (Some "https://api.example.org/v1") = "https://api.example.org/v1"
  /\ apiBase (Some "///") = ""
  /\ search_url (Some "https://api.example.org/") = "https://api.example.org/search"
  /\ me_url (Some "https://api.example.org/") = "https://api.example.org//api/v1/auth/me".
Proof. repeat split. Qed.

End UrlFacts.

(* ===================================================================== *)
(** * Further properties of the theme resolver                           *)
(* ===================================================================== *)

Section ThemeMoreFacts.
Import Theme.



Lemma parse_saved_mode_name t : parse_saved (Some (mode_name t)) = t.
Proof. now destruct t. Qed.

(** A reload (a new mount on the storage the provider leaves behind, with
    any ambient value and any class list) starts with the preference that
    was in force. *)
Theorem reload_restores_the_preference :
  forall b w0 es w prefersDark cl,
    listeners b = [] ->
    mount b = Js.Normal w0 ->
    run es w0 = Js.Normal w ->
    exists w',
      mount (mkBrowser (storage (browser w)) prefersDark cl []) = Js.Normal w'
      /\ getPreference w' = getPreference w
      /\ applied_mode w' = Some (resolveTheme prefersDark (getPreference w)).
Proof.
  intros b w0 es w pd cl Hb Hm Hrun.
  destruct (run_settles es w0 (mount_settles b w0 Hb Hm)) as (w1 & Hrun1 & Hs).
  rewrite Hrun in Hrun1. injection Hrun1 as <-.
  destruct Hs as [(items & Hst & Hitems) _ _ _].
  rewrite Hst. unfold mount. cbn [storage]. rewrite initial_theme_available.
  rewrite Hitems, parse_saved_mode_name.
  unfold getPreference.
  destruct (theme (provider w)); unfold persist_effect, subscribe_effect; simpl;
    eexists; (split; [reflexivity | ]); simpl;
    (split; [reflexivity | apply applied_mode_after_apply]).
Qed.

Lemma reload_restores_the_preference_witness :
  exists w',
    mount (mkBrowser
             (storage (browser
                (mkWorld (mkBrowser (Available [("theme", "dark")]) false ["dark"] [])
                         (mkProvider dark rdark None None 1))))
             true ["app"] []) = Js.Normal w'
    /\ getPreference w' =
       getPreference (mkWorld (mkBrowser (Available [("theme", "dark")]) false ["dark"] [])
                              (mkProvider dark rdark None None 1))
    /\ applied_mode w' =
       Some (resolveTheme true
               (getPreference
                  (mkWorld (mkBrowser (Available [("theme", "dark")]) false ["dark"] [])
                           (mkProvider dark rdark None None 1)))).
Proof.
  apply (reload_restores_the_preference
           fresh_browser fresh_world [SetTheme dark; Render]
           (mkWorld (mkBrowser (Available [("theme", "dark")]) false ["dark"] [])
                    (mkProvider dark rdark None None 1))
           true ["app"]);
    reflexivity.
Defined.

Lemma run_app es1 : forall es2 w,
  run (es1 ++ es2) w =
  match run es1 w with
  | Js.Normal w' => run es2 w'
  | Js.Throw e => Js.Throw e
  end.
Proof.
  induction es1 as [ | e rest IH]; intros es2 w; simpl; [reflexivity | ].
  destruct (step e w); [apply IH | reflexivity].
Qed.

Lemma run_setThemes ps : forall w,
  Settled w ->
  exists w',
    run (map SetTheme ps) w = Js.Normal w'
    /\ Settled w'
    /\ prefers_dark (browser w') = prefers_dark (browser w)
    /\ theme (provider w') = theme (provider w)
    /\ queued (provider w') = match ps with
                              | [] => queued (provider w)
                              | _ => Some (last ps light)
                              end.
Proof.
  induction ps as [ | p rest IH]; intros w Hs.
  - exists w. simpl. auto.
  - simpl map. cbn [run step].
    destruct (IH (setTheme p w) (setTheme_settled p w Hs))
      as (w' & Hrun & Hs' & Hpd & Hth & Hq).
    exists w'. split; [exact Hrun | ]. split; [exact Hs' | ].
    destruct w as [bw [th rt q cu nh]]; simpl in *.
    split; [exact Hpd | ]. split; [exact Hth | ].
    destruct rest; [exact Hq | exact Hq].
Qed.

(** Several preference changes before the next render: the last one is
    the one that takes effect, in the reported preference, in storage and
    on the document element. *)
Theorem last_setTheme_before_render_wins :
  forall b w0 es w ps p,
    listeners b = [] ->
    mount b = Js.Normal w0 ->
    run es w0 = Js.Normal w ->
    exists w',
      run (map SetTheme (ps ++ [p]) ++ [Render]) w = Js.Normal w'
      /\ getPreference w' = p
      /\ persisted w' = Some (mode_name p)
      /\ applied_mode w' = Some (resolveTheme (prefers_dark (browser w)) p).
Proof.
  intros b w0 es w ps p Hb Hm Hrun.
  destruct (run_settles es w0 (mount_settles b w0 Hb Hm)) as (w1 & Hrun1 & Hs).
  rewrite Hrun in Hrun1. injection Hrun1 as <-.
  destruct (run_setThemes (ps ++ [p])%list w Hs) as (w1 & Hr1 & Hs1 & Hpd1 & _ & Hq1).
  assert (Hq : queued (provider w1) = Some p).
  { rewrite Hq1. destruct (ps ++ [p])%list eqn:E.
    - now destruct ps.
    - rewrite <- E. now rewrite last_last. }
  destruct (render_settles w1 Hs1) as (w' & Hr & Hs' & Ht & _ & Hpd).
  rewrite Hq in Ht.
  exists w'. rewrite run_app, Hr1. simpl. rewrite Hr.
  split; [reflexivity | ].
  destruct Hs' as [(items & Hst & Hitems) _ Happ _].
  unfold getPreference, persisted.
  rewrite Hst, Happ, Hitems, Ht, Hpd, Hpd1. auto.
Qed.

Lemma last_setTheme_before_render_wins_witness :
  exists w',
    run (map SetTheme ([dark; system; dark] ++ [light]) ++ [Render]) fresh_world
    = Js.Normal w'
    /\ getPreference w' = light
    /\ persisted w' = Some (mode_name light)
    /\ applied_mode w' = Some (resolveTheme (prefers_dark (browser fresh_world)) light).
Proof.
  apply (last_setTheme_before_render_wins
           fresh_browser fresh_world [] fresh_world [dark; system; dark] light);
    reflexivity.
Defined.

(** *** Classes of other owners *)

Lemma applyThemeClass_keeps_other_classes c resolved cl :
  c <> "light" -> c <> "dark" ->
  existsb (String.eqb c) (applyThemeClass resolved cl) = existsb (String.eqb c) cl.
Proof.
  intros Hl Hd. unfold applyThemeClass.
  rewrite existsb_classList_add, existsb_classList_remove. simpl.
  apply String.eqb_neq in Hl, Hd. rewrite Hl, Hd. simpl.
  rewrite andb_true_r.
  destruct resolved; simpl; [rewrite Hl | rewrite Hd]; apply orb_false_r.
Qed.

Lemma persist_effect_keeps_other_classes c w w' :
  c <> "light" -> c <> "dark" ->
  persist_effect w = Js.Normal w' -> has_class c w' = has_class c w.
Proof.
  intros Hl Hd. unfold persist_effect.
  destruct (setItem _ _ _); [ | discriminate].
  intros [= <-]. unfold has_class; simpl.
  now apply applyThemeClass_keeps_other_classes.
Qed.

Lemma subscribe_effect_classes w :
  classList (browser (subscribe_effect w)) = classList (browser w).
Proof. unfold subscribe_effect. now destruct (theme (provider w)). Qed.

Lemma run_cleanup_classes w :
  classList (browser (run_cleanup w)) = classList (browser w).
Proof. unfold run_cleanup. now destruct (cleanup (provider w)). Qed.

Lemma handlers_keep_other_classes c (ls : list nat) :
  c <> "light" -> c <> "dark" ->
  forall w, has_class c (fold_left (fun acc _ => handler acc) ls w) = has_class c w.
Proof.
  intros Hl Hd. induction ls as [ | h rest IH]; intros w; simpl; [reflexivity | ].
  rewrite IH. unfold has_class, handler; simpl.
  now apply applyThemeClass_keeps_other_classes.
Qed.

Lemma step_keeps_other_classes c e w w' :
  c <> "light" -> c <> "dark" ->
  step e w = Js.Normal w' -> has_class c w' = has_class c w.
Proof.
  intros Hl Hd. destruct e as [t | | d]; simpl.
  - intros [= <-]. reflexivity.
  - unfold render. destruct (queued (provider w)) as [t | ].
    + destruct (ThemeMode_eqb t (theme (provider w))).
      * intros [= <-]. reflexivity.
      * destruct (persist_effect _) as [w1 | ] eqn:E; [ | discriminate].
        intros [= <-].
        unfold has_class. rewrite subscribe_effect_classes.
        change (has_class c w1 = has_class c w).
        rewrite (persist_effect_keeps_other_classes c _ _ Hl Hd E).
        unfold has_class. now rewrite run_cleanup_classes.
    + intros [= <-]. reflexivity.
  - intros [= <-]. unfold ambient_change.
    now rewrite handlers_keep_other_classes.
Qed.

(** The resolver only ever touches the classes [light] and [dark] of the
    document element: any other class is on it after a mount and any run
    exactly when it was there before. *)
Theorem theme_resolver_keeps_other_classes :
  forall c b w0 es w,
    c <> "light" -> c <> "dark" ->
    mount b = Js.Normal w0 ->
    run es w0 = Js.Normal w ->
    has_class c w = existsb (String.eqb c) (classList b).
Proof.
  intros c b w0 es w Hl Hd Hm Hrun.
  assert (H0 : has_class c w0 = existsb (String.eqb c) (classList b)).
  { unfold mount in Hm.
    destruct (initial_theme (storage b)) as [t | ]; [ | discriminate].
    destruct (persist_effect _) as [w1 | ] eqn:E; [ | discriminate].
    injection Hm as <-.
    unfold has_class. rewrite subscribe_effect_classes.
    change (has_class c w1 = existsb (String.eqb c) (classList b)).
    now rewrite (persist_effect_keeps_other_classes c _ _ Hl Hd E). }
  rewrite <- H0. clear H0 Hm.
  revert w0 Hrun. induction es as [ | e rest IH]; intros w0 Hrun; simpl in Hrun.
  - now injection Hrun as <-.
  - destruct (step e w0) as [w1 | ] eqn:E; [ | discriminate].
    rewrite (IH w1 Hrun). now apply (step_keeps_other_classes c e).
Qed.

Lemma theme_resolver_keeps_other_classes_witness :
  has_class "app"
    (mkWorld (mkBrowser (Available [("theme", "dark")]) false ["app"; "dark"] [])
             (mkProvider dark rdark None None 1))
  = existsb (String.eqb "app")
            (classList (mkBrowser (Available []) false ["app"; "light"] [])).
Proof.
  apply (theme_resolver_keeps_other_classes
           "app" (mkBrowser (Available []) false ["app"; "light"] [])
           (mkWorld (mkBrowser (Available [("theme", "system")]) false
                               ["app"; "light"] [0])
                    (mkProvider system rlight None (Some 0) 1))
           [SetTheme dark; Render]);
    first [discriminate | reflexivity].
Defined.

(** *** The pre-render script and the provider agree *)

Lemma classList_toggle_has token force cl :
  existsb (String.eqb token) (Main.classList_toggle token force cl) = force.
Proof.
  unfold Main.classList_toggle. destruct force.
  - rewrite existsb_classList_add, String.eqb_refl. apply orb_true_r.
  - rewrite existsb_classList_remove. simpl. rewrite String.eqb_refl. simpl.
    apply andb_false_r.
Qed.

(** With readable storage, whatever it holds, the [dark] class that the
    pre-render script of the entry point leaves on the document element is
    the one the provider applies when it mounts afterwards: the first
    render does not flip the page between dark and not dark. *)
Theorem pre_render_script_agrees_with_the_provider :
  forall items prefersDark cl,
    let b := Main.apply_before_render (mkBrowser (Available items) prefersDark cl []) in
    exists w,
      mount b = Js.Normal w
      /\ has_class "dark" w = existsb (String.eqb "dark") (classList b)
      /\ has_class "dark" w =
         match resolveTheme prefersDark (parse_saved (lookup "theme" items)) with
         | rdark => true
         | rlight => false
         end.
Proof.
  intros items pd cl. cbv zeta.
  unfold Main.apply_before_render. cbn [storage getItem prefers_dark classList listeners].
  set (saved := lookup "theme" items).
  set (force := String.eqb _ "dark").
  assert (Hforce : force = match resolveTheme pd (parse_saved saved) with
                           | rdark => true | rlight => false end).
  { subst force. destruct saved as [s | ]; [ | now destruct pd].
    destruct s as [ | c r]; [now destruct pd | ].
    unfold Main.saved_or_system, parse_saved.
    remember (String c r) as s eqn:Es. clear Es.
    destruct (String.eqb s "light") eqn:El.
    - apply String.eqb_eq in El. subst s. reflexivity.
    - destruct (String.eqb s "dark") eqn:Ed.
      + simpl. rewrite Ed. reflexivity.
      + simpl. destruct (String.eqb s "system"); now destruct pd. }
  unfold mount. cbn [storage]. rewrite initial_theme_available. fold saved.
  unfold persist_effect, subscribe_effect.
  cbn [browser provider storage prefers_dark classList listeners theme setItem].
  destruct (parse_saved saved) eqn:Ep.
  all: eexists; (split; [reflexivity | ]);
    unfold has_class; cbn [browser classList];
    destruct (applyThemeClass_applied (resolveTheme pd (parse_saved saved))
                (Main.classList_toggle "dark" force cl)) as [_ Hd];
    rewrite Ep in Hd; rewrite Hd, classList_toggle_has, Hforce; auto.
Qed.

End ThemeMoreFacts.

(* ===================================================================== *)
(** * Further properties of the session store                            *)
(* ===================================================================== *)

Section SessionMoreFacts.
Import Http.

(** *** Capabilities, provider revision *)

(** At shell start of the provider revision the store records an enabled
    integration exactly when the capabilities reply has a success status
    and a body with [enabled: true]; a failure status, an unreadable body
    or an unreachable backend leave it disabled, and in no case does the
    initialization throw. *)
Theorem capabilities_enable_auth_only_on_success :
  forall be,
    let after := OAuthSession.initialize be in
    snd after = Js.Normal tt
    /\ (OAuthSession.authEnabled (store (fst after)) = true <->
        exists status data,
          OAuthSession.on_providers be = Response status (Some data)
          /\ ok status = true
          /\ OAuthSession.pd_enabled data = Some true)
    /\ OAuthSession.providers (store (fst after)) =
       match OAuthSession.on_providers be with
       | Response status (Some data) =>
           if ok status then
             match OAuthSession.pd_providers data with
             | Some p => p
             | None => OAuthSession.mkProviders false false
             end
           else OAuthSession.mkProviders false false
       | _ => OAuthSession.mkProviders false false
       end.
Proof.
  intros be. cbv zeta.
  unfold OAuthSession.initialize, OAuthSession.refreshUser, Js.try_finally,
    Js.try_catch, Js.bind, Js.when, fetch, json.
  destruct (OAuthSession.on_providers be) as [status body | reason]; simpl.
  - destruct (ok status) eqn:Hok; simpl.
    + destruct body as [[en pr] | ]; simpl.
      * split; [reflexivity | ]. split; [ | reflexivity].
        split.
        -- intros H. exists status, (OAuthSession.mkProvidersData en pr).
           repeat split; auto. simpl.
           destruct en as [[ | ] | ]; simpl in H; congruence.
        -- intros (st & d & [= <- <-] & _ & Hen). simpl in Hen. now rewrite Hen.
      * split; [reflexivity | ]. split; [ | reflexivity].
        split; [discriminate | ]. intros (st & d & [=] & _).
    + split; [reflexivity | ]. split; [ | now destruct body].
      split; [discriminate | ].
      intros (st & d & [= <- _] & Hok' & _). congruence.
  - split; [reflexivity | ]. split; [ | reflexivity].
    split; [discriminate | ]. intros (st & d & [=] & _).
Qed.

(** *** Login and registration, password revision *)


Lemma credential_call_cases (e : Endpoint) (reply : Reply PasswordSession.CredentialData)
      (fallback : string) (w : World PasswordSession.Store) :
  Js.try_catch
    (Js.bind (fetch e reply) (fun res =>
     Js.bind (json res) (fun data =>
       if ok (fst res) && PasswordSession.cd_ok data
       then Js.bind (PasswordSession.setUser (PasswordSession.cd_user data))
                    (fun _ => Js.ret (PasswordSession.mkOutcome true None))
       else Js.ret (PasswordSession.mkOutcome false
                      (Some (PasswordSession.detail_or
                               (PasswordSession.cd_detail data) fallback))))))
    (fun _ => Js.ret (PasswordSession.mkOutcome false (Some "Network error"))) w
  =
  match reply with
  | Response status (Some data) =>
      if ok status && PasswordSession.cd_ok data
      then (mkWorld (PasswordSession.mkStore (PasswordSession.cd_user data)
                       (PasswordSession.loading (store w))
                       (PasswordSession.authEnabled (store w)))
                    (issued w ++ [e]) (console w),
            Js.Normal (PasswordSession.mkOutcome true None))
      else (mkWorld (store w) (issued w ++ [e]) (console w),
            Js.Normal (PasswordSession.mkOutcome false
                         (Some (PasswordSession.detail_or
                                  (PasswordSession.cd_detail data) fallback))))
  | _ => (mkWorld (store w) (issued w ++ [e]) (console w),
          Js.Normal (PasswordSession.mkOutcome false (Some "Network error")))
  end.
Proof.
  unfold Js.try_catch, Js.bind, fetch, json.
  destruct reply as [status [data | ] | reason]; simpl; try reflexivity.
  now destruct (ok status && PasswordSession.cd_ok data).
Qed.

Lemma login_cases be w :
  PasswordSession.login be w =
  match PasswordSession.on_login be with
  | Response status (Some data) =>
      if ok status && PasswordSession.cd_ok data
      then (mkWorld (PasswordSession.mkStore (PasswordSession.cd_user data)
                       (PasswordSession.loading (store w))
                       (PasswordSession.authEnabled (store w)))
                    (issued w ++ [AuthLogin_POST]) (console w),
            Js.Normal (PasswordSession.mkOutcome true None))
      else (mkWorld (store w) (issued w ++ [AuthLogin_POST]) (console w),
            Js.Normal (PasswordSession.mkOutcome false
                         (Some (PasswordSession.detail_or
                                  (PasswordSession.cd_detail data) "Login failed"))))
  | _ => (mkWorld (store w) (issued w ++ [AuthLogin_POST]) (console w),
          Js.Normal (PasswordSession.mkOutcome false (Some "Network error")))
  end.
Proof. apply credential_call_cases. Qed.

Lemma register_cases be w :
  PasswordSession.register be w =
  match PasswordSession.on_register be with
  | Response status (Some data) =>
      if ok status && PasswordSession.cd_ok data
      then (mkWorld (PasswordSession.mkStore (PasswordSession.cd_user data)
                       (PasswordSession.loading (store w))
                       (PasswordSession.authEnabled (store w)))
                    (issued w ++ [AuthRegister_POST]) (console w),
            Js.Normal (PasswordSession.mkOutcome true None))
      else (mkWorld (store w) (issued w ++ [AuthRegister_POST]) (console w),
            Js.Normal (PasswordSession.mkOutcome false
                         (Some (PasswordSession.detail_or
                                  (PasswordSession.cd_detail data)
                                  "Registration failed"))))
  | _ => (mkWorld (store w) (issued w ++ [AuthRegister_POST]) (console w),
          Js.Normal (PasswordSession.mkOutcome false (Some "Network error")))
  end.
Proof. apply credential_call_cases. Qed.


(** *** Any sequence of operations *)

Lemma perform_settles o w :
  PasswordSession.loading (store w) = false ->
  snd (SessionLife.perform o w) = Js.Normal tt
  /\ PasswordSession.loading (store (fst (SessionLife.perform o w))) = false
  /\ length (issued (fst (SessionLife.perform o w))) = S (length (issued w)).
Proof.
  intros Hl. destruct o as [be | be | be | be]; simpl.
  - destruct (password_refreshUser_settles be w) as (H1 & H2 & H3).
    rewrite H1, H2, H3, length_app. simpl. repeat split. lia.
  - unfold SessionLife.forget. rewrite login_cases.
    destruct (PasswordSession.on_login be) as [status [data | ] | reason];
      [destruct (ok status && PasswordSession.cd_ok data) | | ]; simpl;
      rewrite length_app; simpl; repeat split; auto; lia.
  - unfold SessionLife.forget. rewrite register_cases.
    destruct (PasswordSession.on_register be) as [status [data | ] | reason];
      [destruct (ok status && PasswordSession.cd_ok data) | | ]; simpl;
      rewrite length_app; simpl; repeat split; auto; lia.
  - rewrite password_logout_cases.
    destruct (PasswordSession.on_logout be); simpl;
      rewrite length_app; simpl; repeat split; auto; lia.
Qed.

Lemma perform_all_settles os : forall w,
  PasswordSession.loading (store w) = false ->
  snd (SessionLife.perform_all os w) = Js.Normal tt
  /\ PasswordSession.loading (store (fst (SessionLife.perform_all os w))) = false
  /\ length (issued (fst (SessionLife.perform_all os w))) =
     length os + length (issued w).
Proof.
  induction os as [ | o rest IH]; intros w Hl; simpl.
  - auto.
  - unfold Js.bind.
    destruct (perform_settles o w Hl) as (H1 & H2 & H3).
    destruct (SessionLife.perform o w) as [w1 c]. simpl in *. subst c.
    destruct (IH w1 H2) as (I1 & I2 & I3).
    rewrite I1, I2, I3, H3. repeat split. lia.
Qed.

(** Once the shell has started, no sequence of [refreshUser], [login],
    [register] and [logout] calls, whatever the backend answers to each,
    throws or sets [loading] again; each call issues exactly one
    request. *)
Theorem session_operations_never_throw_nor_reload :
  forall be os,
    let after := SessionLife.perform_all os (fst (PasswordSession.initialize be)) in
    snd after = Js.Normal tt
    /\ PasswordSession.loading (store (fst after)) = false
    /\ length (issued (fst after)) = S (length os).
Proof.
  intros be os. cbv zeta.
  destruct (password_refreshUser_settles be PasswordSession.initial_world)
    as (_ & H2 & H3).
  destruct (perform_all_settles os (fst (PasswordSession.initialize be)) H2)
    as (I1 & I2 & I3).
  unfold PasswordSession.initialize in *.
  rewrite I1, I2, I3, H3. simpl. repeat split. lia.
Qed.

End SessionMoreFacts.

(* ===================================================================== *)
(** * Properties of the sign-in dialog and the user menu                 *)
(* ===================================================================== *)

Section DialogFacts.
Import Http.

Lemma error_or_nonempty e fallback :
  fallback <> "" -> LoginModal.error_or e fallback <> "".
Proof.
  intros H. unfold LoginModal.error_or. destruct e as [[ | c r] | ]; auto. discriminate.
Qed.

(** One submission of the dialog makes one round trip to the endpoint of
    its mode and ends with the dialog no longer loading.  When the backend
    accepts, the dialog is closed and the session is the payload; in every
    other case the dialog stays as open as it was, shows a non-empty error
    message, and the session is untouched. *)
Theorem dialog_closes_or_shows_a_reason :
  forall be m w,
    let reply := match LoginModal.mode m with
                 | LoginModal.login_mode => PasswordSession.on_login be
                 | LoginModal.register_mode => PasswordSession.on_register be
                 end in
    let endpoint := match LoginModal.mode m with
                    | LoginModal.login_mode => AuthLogin_POST
                    | LoginModal.register_mode => AuthRegister_POST
                    end in
    let m' := fst (LoginModal.handleSubmit be m w) in
    let w' := snd (LoginModal.handleSubmit be m w) in
    LoginModal.loading m' = false
    /\ issued w' = (issued w ++ [endpoint])%list
    /\ match SessionLife.accepted reply with
       | Some payload =>
           LoginModal.isOpen m' = false
           /\ LoginModal.error m' = ""
           /\ PasswordSession.user (store w') = payload
       | None =>
           LoginModal.isOpen m' = LoginModal.isOpen m
           /\ LoginModal.error m' <> ""
           /\ store w' = store w
       end.
Proof.
  intros be m w. cbv zeta. unfold LoginModal.handleSubmit, SessionLife.accepted.
  destruct (LoginModal.mode m).
  - rewrite login_cases.
    destruct (PasswordSession.on_login be) as [status [data | ] | reason];
      [destruct (ok status && PasswordSession.cd_ok data) | | ];
      cbn -[LoginModal.error_or PasswordSession.detail_or];
      repeat split; auto;
      try (apply error_or_nonempty; discriminate).
  - rewrite register_cases.
    destruct (PasswordSession.on_register be) as [status [data | ] | reason];
      [destruct (ok status && PasswordSession.cd_ok data) | | ];
      cbn -[LoginModal.error_or PasswordSession.detail_or];
      repeat split; auto;
      try (apply error_or_nonempty; discriminate).
Qed.

(** A sign-in that the backend refuses with a reason. *)
Example dialog_sign_in_run :
  let be := PasswordSession.mkBackend
              (NetworkFailure "") (NetworkFailure "")
              (Response 401 (Some (PasswordSession.mkCredentialData
                                     false None (Some "Invalid credentials"))))
              (NetworkFailure "") in
  let typed := LoginModal.mkState true LoginModal.login_mode "alice@example.org"
                                  "secret1" "" "" false in
  let '(m', w') := LoginModal.handleSubmit be typed PasswordSession.initial_world in
  LoginModal.isOpen m' = true
  /\ LoginModal.error m' = "Invalid credentials"
  /\ issued w' = [AuthLogin_POST].
Proof. vm_compute. repeat split. Qed.

(** *** The user menu *)

Lemma menu_mount_tracked : Tracked UserMenu.mount.
Proof. exists 0. split; reflexivity. Qed.

Lemma setIsOpen_tracked v m :
  Tracked m -> Tracked (UserMenu.setIsOpen v m) /\ UserMenu.isOpen (UserMenu.setIsOpen v m) = v.
Proof.
  intros (h & Hc & Hl). unfold UserMenu.setIsOpen.
  destruct (Bool.eqb v (UserMenu.isOpen m)) eqn:E.
  - apply Bool.eqb_prop in E. subst v. split; [exists h; auto | reflexivity].
  - destruct m as [o ls cu nh]; simpl in *. subst cu.
    unfold UserMenu.outside_effect, UserMenu.run_cleanup; simpl.
    split; [ | reflexivity].
    exists nh. split; [reflexivity | ]. simpl.
    destruct o; subst ls; simpl; rewrite ?Nat.eqb_refl; simpl;
      destruct v; simpl in *; try discriminate; reflexivity.
Qed.

Lemma mousedown_tracked attached inside m :
  Tracked m ->
  Tracked (UserMenu.mousedown attached inside m)
  /\ UserMenu.isOpen (UserMenu.mousedown attached inside m) =
     UserMenu.isOpen m && negb (attached && negb inside).
Proof.
  intros Ht. pose proof Ht as (h & Hc & Hl).
  unfold UserMenu.mousedown. rewrite Hl.
  destruct (UserMenu.isOpen m) eqn:Eo; simpl.
  - unfold UserMenu.handleClickOutside.
    destruct (attached && negb inside); simpl.
    + apply setIsOpen_tracked, Ht.
    + split; [exact Ht | exact Eo].
  - split; [exact Ht | exact Eo].
Qed.

Lemma menu_step_tracked e m : Tracked m -> Tracked (UserMenu.step e m).
Proof.
  intros Ht. destruct e as [ | attached inside | ]; simpl.
  - apply setIsOpen_tracked, Ht.
  - apply mousedown_tracked, Ht.
  - apply setIsOpen_tracked, Ht.
Qed.

Lemma menu_run_tracked es : forall m, Tracked m -> Tracked (UserMenu.run es m).
Proof.
  unfold UserMenu.run.
  induction es as [ | e rest IH]; intros m Ht; simpl; [exact Ht | ].
  apply IH, menu_step_tracked, Ht.
Qed.

(** After any sequence of clicks on the menu button, mouse presses and
    sign-outs, the menu has exactly one [mousedown] listener on the
    document when it is open and none when it is closed; a mouse press
    outside the rendered menu closes it and one inside leaves it open; and
    unmounting leaves no listener behind. *)
Theorem menu_listens_only_while_open :
  forall es,
    let m := UserMenu.run es UserMenu.mount in
    length (UserMenu.doc_listeners m) = (if UserMenu.isOpen m then 1 else 0)
    /\ UserMenu.isOpen (UserMenu.mousedown true false m) = false
    /\ UserMenu.isOpen (UserMenu.mousedown true true m) = UserMenu.isOpen m
    /\ UserMenu.doc_listeners (UserMenu.unmount m) = [].
Proof.
  intros es. cbv zeta.
  pose proof (menu_run_tracked es UserMenu.mount menu_mount_tracked) as Ht.
  destruct (mousedown_tracked true false _ Ht) as (_ & H1).
  destruct (mousedown_tracked true true _ Ht) as (_ & H2).
  rewrite H1, H2. simpl. rewrite andb_false_r, andb_true_r.
  destruct Ht as (h & Hc & Hl).
  unfold UserMenu.unmount, UserMenu.run_cleanup. rewrite Hc, Hl. simpl.
  destruct (UserMenu.isOpen _); simpl; rewrite ?Nat.eqb_refl; auto.
Qed.

(** Signing out from the menu never throws and always closes the menu,
    in both revisions of the store: with the session cleared when the
    logout request completed, and with the session still in place when the
    request failed at the transport level. *)
Theorem sign_out_always_closes_the_menu :
  forall es,
    let m := UserMenu.run es UserMenu.mount in
    (forall be w,
       let '(m', w', c) := UserMenu.handleLogout (PasswordSession.logout be) m w in
       c = Js.Normal tt
       /\ UserMenu.isOpen m' = false
       /\ UserMenu.doc_listeners m' = []
       /\ PasswordSession.user (store w') =
          match PasswordSession.on_logout be with
          | Response _ _ => None
          | NetworkFailure _ => PasswordSession.user (store w)
          end)
    /\
    (forall be w,
       let '(m', w', c) := UserMenu.handleLogout (OAuthSession.logout be) m w in
       c = Js.Normal tt
       /\ UserMenu.isOpen m' = false
       /\ UserMenu.doc_listeners m' = []
       /\ OAuthSession.user (store w') =
          match OAuthSession.on_logout be with
          | Response _ _ => None
          | NetworkFailure _ => OAuthSession.user (store w)
          end).
Proof.
  intros es. cbv zeta.
  pose proof (menu_run_tracked es UserMenu.mount menu_mount_tracked) as Ht.
  destruct (setIsOpen_tracked false _ Ht) as ((h & Hc & Hl) & Ho).
  rewrite Ho in Hl.
  split; intros be w; unfold UserMenu.handleLogout.
  - rewrite password_logout_cases.
    destruct (PasswordSession.on_logout be); simpl; auto.
  - rewrite oauth_logout_cases.
    destruct (OAuthSession.on_logout be); simpl; auto.
Qed.

End DialogFacts.

(* ===================================================================== *)
(** * Properties of the statistics polling                               *)
(* ===================================================================== *)

Section LearnerFacts.
Import Learner.

Lemma run_learner_app es1 es2 s :
  run (es1 ++ es2) s = run es2 (run es1 s).
Proof. unfold run. apply fold_left_app. Qed.

Lemma failing_events_keep_stats es : forall s,
  (forall r, In (Settle r) es ->
             exists e, getLearnerStats_result r = Js.Throw e) ->
  learnerStats (run es s) = learnerStats s.
Proof.
  induction es as [ | e rest IH]; intros s Hfail; [reflexivity | ].
  change (run (e :: rest) s) with (run rest (step e s)).
  rewrite IH.
  - destruct e as [id | r]; simpl.
    + unfold tick. now destruct (existsb _ _).
    + unfold fetchStats_resume.
      destruct (Hfail r (or_introl eq_refl)) as (x & ->). reflexivity.
  - intros r Hin. apply Hfail. now right.
Qed.

(** The statistics on display are those of the last successful poll: a
    successful reply replaces them whatever was there, and the failed
    polls (failure status, unreadable body, unreachable backend) and timer
    ticks that follow leave them in place. *)
Theorem stats_are_those_of_the_last_successful_poll :
  forall s before r stats later,
    getLearnerStats_result r = Js.Normal stats ->
    (forall r', In (Settle r') later ->
                exists e, getLearnerStats_result r' = Js.Throw e) ->
    learnerStats (run (before ++ Settle r :: later) s) = Some stats.
Proof.
  intros s before r stats later Hok Hfail.
  rewrite run_learner_app.
  change (run (Settle r :: later) (run before s))
    with (run later (fetchStats_resume r (run before s))).
  rewrite (failing_events_keep_stats later _ Hfail).
  unfold fetchStats_resume. now rewrite Hok.
Qed.

Lemma stats_are_those_of_the_last_successful_poll_witness :
  learnerStats
    (run ([Settle (Unreachable "Failed to fetch"); Tick 0]
          ++ Settle (Answered 200 (Some (mkStats 3 2 1 2 3 None true)))
             :: [Tick 0; Settle (Answered 503 None); Settle (Answered 200 None)])
         (mount unmounted))
  = Some (mkStats 3 2 1 2 3 None true).
Proof.
  apply (stats_are_those_of_the_last_successful_poll
           (mount unmounted)
           [Settle (Unreachable "Failed to fetch"); Tick 0]
           (Answered 200 (Some (mkStats 3 2 1 2 3 None true)))
           (mkStats 3 2 1 2 3 None true)
           [Tick 0; Settle (Answered 503 None); Settle (Answered 200 None)]).
  - reflexivity.
  - intros r' [H | [H | [H | []]]]; try discriminate;
      injection H as <-; eexists; reflexivity.
Defined.

Lemma mounted_run es : forall s,
  interval s = Some 0 -> live_timers s = [0] ->
  interval (run es s) = Some 0
  /\ live_timers (run es s) = [0]
  /\ requested (run es s) = requested s + ticks_of 0 es.
Proof.
  induction es as [ | e rest IH]; intros s Hi Hl.
  - simpl. unfold ticks_of. simpl. auto.
  - change (run (e :: rest) s) with (run rest (step e s)).
    destruct e as [id | r].
    + simpl step. unfold tick. rewrite Hl. simpl. rewrite orb_false_r.
      unfold ticks_of. simpl.
      destruct (Nat.eqb id 0) eqn:E.
      * destruct (IH (fetchStats_begin s) Hi Hl) as (I1 & I2 & I3).
        rewrite I1, I2, I3. unfold ticks_of. simpl. repeat split. lia.
      * destruct (IH s Hi Hl) as (I1 & I2 & I3).
        rewrite I1, I2, I3. unfold ticks_of. auto.
    + simpl step. unfold ticks_of. simpl.
      assert (Hi' : interval (fetchStats_resume r s) = Some 0)
        by (unfold fetchStats_resume; now destruct (getLearnerStats_result r)).
      assert (Hl' : live_timers (fetchStats_resume r s) = [0])
        by (unfold fetchStats_resume; now destruct (getLearnerStats_result r)).
      destruct (IH _ Hi' Hl') as (I1 & I2 & I3).
      rewrite I1, I2, I3.
      unfold fetchStats_resume, ticks_of.
      now destruct (getLearnerStats_result r).
Qed.

Lemma no_timer_no_request es : forall s,
  live_timers s = [] -> requested (run es s) = requested s /\ live_timers (run es s) = [].
Proof.
  induction es as [ | e rest IH]; intros s Hl; [auto | ].
  change (run (e :: rest) s) with (run rest (step e s)).
  destruct e as [id | r]; simpl step.
  - unfold tick. rewrite Hl. simpl. apply IH, Hl.
  - assert (Hl' : live_timers (fetchStats_resume r s) = [])
      by (unfold fetchStats_resume; now destruct (getLearnerStats_result r)).
    destruct (IH _ Hl') as (I1 & I2). rewrite I1, I2.
    unfold fetchStats_resume. now destruct (getLearnerStats_result r).
Qed.

(** The shell polls once when it mounts and once per tick of its
    interval timer, however the polls end; it holds exactly one timer
    while mounted; unmounting clears it, and from then on no tick issues a
    request. *)
Theorem polling_runs_on_one_timer_until_unmount :
  forall es es',
    let s := run es (mount unmounted) in
    live_timers s = [0]
    /\ requested s = 1 + ticks_of 0 es
    /\ live_timers (unmount s) = []
    /\ requested (run es' (unmount s)) = requested s.
Proof.
  intros es es'. cbv zeta.
  destruct (mounted_run es (mount unmounted) eq_refl eq_refl) as (Hi & Hl & Hr).
  split; [exact Hl | ]. split; [exact Hr | ].
  assert (Hu : live_timers (unmount (run es (mount unmounted))) = []).
  { unfold unmount. rewrite Hi, Hl. reflexivity. }
  split; [exact Hu | ].
  destruct (no_timer_no_request es' _ Hu) as (H1 & _). rewrite H1.
  unfold unmount. now rewrite Hi.
Qed.

End LearnerFacts.

(* ===================================================================== *)
(** * Further properties of the search orchestrator                      *)
(* ===================================================================== *)

Section SearchMoreFacts.
Import Api App.

Lemma form_fire_tidy e w : Tidy w -> Tidy (form_fire e w).
Proof.
  destruct w as [s sn fl nt]. unfold Tidy; simpl.
  destruct fl as [ | p [ | p' fl]]; [ | | tauto].
  - intros (Hl & Hm).
    destruct e as [q | n | m | a | | t r]; simpl; auto.
    unfold submit_disabled. rewrite Hl. simpl. auto.
  - intros (Hl & He & Hr & Hc & Hm).
    destruct e as [q | n | m | a | | t r]; simpl; auto.
    + unfold submit_disabled. rewrite Hl. simpl. auto.
    + unfold onSearch_settle; simpl.
      destruct (Nat.eqb (ticket p) t); simpl; [ | auto].
      split; [reflexivity | ].
      unfold onSearch_resume.
      destruct (branch p).
      * destruct (qsearchSearch_result r); simpl; [now rewrite He | auto].
      * destruct (qsearchHybrid_result r); simpl; [now rewrite He | auto].
Qed.

Lemma form_fire_all_tidy es : forall w, Tidy w -> Tidy (form_fire_all es w).
Proof.
  unfold form_fire_all.
  induction es as [ | e rest IH]; intros w Ht; simpl; [assumption | ].
  apply IH, form_fire_tidy, Ht.
Qed.

(** Through the rendered form at most one search is in flight, the shell
    is loading exactly while one is, and an error message is never shown
    together with results, a mode or a cache flag of an earlier search. *)
Theorem form_keeps_one_search_and_no_stale_outcome :
  forall es,
    let w := form_fire_all es initial_world in
    length (inflight w) <= 1
    /\ loading (app w) = negb (Nat.eqb (length (inflight w)) 0)
    /\ match error (app w) with
       | Some _ => results (app w) = [] /\ currentMode (app w) = None
                   /\ cacheHit (app w) = None
       | None => True
       end.
Proof.
  intros es. cbv zeta.
  assert (H0 : Tidy initial_world) by (unfold Tidy; simpl; split; [auto | tauto]).
  pose proof (form_fire_all_tidy es initial_world H0) as Ht.
  unfold Tidy in Ht.
  destruct (inflight (form_fire_all es initial_world)) as [ | p [ | p' fl]];
    [ | | tauto]; simpl.
  - destruct Ht as (Hl & Hm). split; [lia | ]. split; [exact Hl | ].
    destruct (error _); [apply Hm; discriminate | exact I].
  - destruct Ht as (Hl & He & _). split; [lia | ]. split; [exact Hl | ].
    now rewrite He.
Qed.

(** Without the form's gate an error can sit next to the results of an
    earlier overlapping search. *)
Example overlapping_error_keeps_earlier_results :
  let w := fire_all [Search; Search;
                     Settle 0 (reply_with "" [hit "a"]);
                     Settle 1 (Unreachable "Failed to fetch")] initial_world in
  error (app w) = Some "Failed to fetch" /\ results (app w) = [hit "a"].
Proof. vm_compute. split; reflexivity. Qed.

Lemma fire_requests e w :
  forallb well_formed_request (sent w) = true ->
  forallb well_formed_request (sent (fire e w)) = true
  /\ length (sent (fire e w)) =
     length (sent w) + match e with Search => 1 | _ => 0 end.
Proof.
  intros H. destruct e as [q | n | m | a | | t r]; simpl; try (split; [exact H | lia]).
  - rewrite forallb_app, H, length_app. simpl.
    split; [ | lia]. now destruct (searchMode (app w)).
  - unfold onSearch_settle.
    destruct (take_pending t (inflight w)) as [[p rest] | ]; simpl;
      (split; [exact H | lia]).
Qed.

(** Whatever the user does and whatever arrives, with or without the
    form's gate, every [onSearch] call sends exactly one request, and each
    request sent is either a plain search without blend weight and learn
    flag or a hybrid search with a blend weight and [learn] true (never
    false). *)
Theorem every_request_is_of_one_mode :
  forall es,
    let w := fire_all es initial_world in
    forallb well_formed_request (sent w) = true
    /\ length (sent w) = searches_in es.
Proof.
  intros es. cbv zeta.
  assert (H : forall w,
             forallb well_formed_request (sent w) = true ->
             forallb well_formed_request (sent (fire_all es w)) = true
             /\ length (sent (fire_all es w)) = length (sent w) + searches_in es).
  { unfold fire_all, searches_in.
    induction es as [ | e rest IH]; intros w Hw; simpl.
    - split; [exact Hw | lia].
    - destruct (fire_requests e w Hw) as (H1 & H2).
      destruct (IH (fire e w) H1) as (I1 & I2).
      split; [exact I1 | ]. rewrite I2, H2.
      destruct e; simpl; lia. }
  destruct (H initial_world eq_refl) as (H1 & H2).
  split; [exact H1 | exact H2].
Qed.

End SearchMoreFacts.

(* ===================================================================== *)
(** * Properties of the federation dashboard                             *)
(* ===================================================================== *)

Section FederationFacts.
Import Federation.

Ltac run_federation :=
  unfold fetchAll, createKey, revokeKey, Js.try_finally, Js.try_catch, Js.bind,
    Js.ret, Js.throw, Js.modify, setLoading, setHealth, setApiKeys, setInstances,
    setSyncStatus, setCreatedKey, setNewKeyName, setCreateLoading, set_cells,
    request, console_error, field_or_empty, listed, or_null, refresh_requests.

(** [fetchAll] never throws, issues its four requests and ends with
    [loading = false], leaving the key-creation cells alone.  Each cell
    takes the content of its own reply, or its fallback (no health, no
    keys, no instances, no sync status) when that request failed; the one
    exception is a [keys] or [instances] body that is the JSON value
    [null]: the refresh stops there and the cells after it keep what they
    had. *)
Theorem fetchAll_settles_every_cell :
  forall r w,
    let w' := fst (fetchAll r w) in
    snd (fetchAll r w) = Js.Normal tt
    /\ requests w' = (requests w ++ refresh_requests)%list
    /\ loading (cells w') = false
    /\ (newKeyName (cells w'), newKeyType (cells w'), createdKey (cells w'),
        createLoading (cells w'))
       = (newKeyName (cells w), newKeyType (cells w), createdKey (cells w),
          createLoading (cells w))
    /\ health (cells w') = or_null (health_reply r)
    /\ (apiKeys (cells w'), instances (cells w'), syncStatus (cells w')) =
       match keys_reply r, instances_reply r with
       | JsonNull, _ =>
           (apiKeys (cells w), instances (cells w), syncStatus (cells w))
       | _, JsonNull =>
           (listed (keys_reply r), instances (cells w), syncStatus (cells w))
       | _, _ =>
           (listed (keys_reply r), listed (instances_reply r),
            or_null (sync_reply r))
       end.
Proof.
  intros [hr kr ir sr] [s rq co]. cbv zeta. run_federation. simpl.
  destruct kr as [ | | [k | ]]; simpl;
    destruct ir as [ | | [i | ]]; simpl;
    rewrite <- ?app_assoc; simpl; repeat split.
Qed.

(** [createKey] does nothing at all while the name is empty.  Otherwise
    it never throws, posts the typed name and type with the six scopes and
    the rate limit 120, and ends with [createLoading = false]; when the
    reply carries a key, the key is put on display, the name field is
    cleared (which disables the create button) and the lists are
    refreshed; when it does not (no key in the body, [null], an unreadable
    body or an unreachable backend) the name and any key on display stay
    and nothing is refreshed. *)
Theorem createKey_shows_key_or_changes_nothing :
  forall created refreshed w,
    let w' := fst (createKey created refreshed w) in
    snd (createKey created refreshed w) = Js.Normal tt
    /\ if String.eqb (newKeyName (cells w)) "" then w' = w
       else
         createLoading (cells w') = false
         /\ match created with
            | JsonObject (Some (String c k)) =>
                requests w' =
                  (requests w
                   ++ PostKey (newKeyName (cells w)) (newKeyType (cells w))
                              ["read"; "write"; "search"; "hybrid"; "sync"; "crawl"] 120
                   :: refresh_requests)%list
                /\ createdKey (cells w') = Some (String c k)
                /\ newKeyName (cells w') = ""
                /\ create_disabled (cells w') = true
            | _ =>
                requests w' =
                  (requests w
                   ++ [PostKey (newKeyName (cells w)) (newKeyType (cells w))
                               ["read"; "write"; "search"; "hybrid"; "sync"; "crawl"]
                               120])%list
                /\ createdKey (cells w') = createdKey (cells w)
                /\ newKeyName (cells w') = newKeyName (cells w)
                /\ apiKeys (cells w') = apiKeys (cells w)
            end.
Proof.
  intros created [hr kr ir sr] [s rq co]. cbv zeta.
  run_federation. unfold create_disabled, truthy. cbn [cells newKeyName].
  destruct (String.eqb (newKeyName s) "") eqn:E; [split; reflexivity | ].
  destruct created as [ | | [[ | c k] | ]]; simpl; try (repeat split; fail).
  destruct kr as [ | | [k' | ]]; simpl;
    destruct ir as [ | | [i | ]]; simpl;
    rewrite <- ?app_assoc; simpl; repeat split.
Qed.

(** [revokeKey] never throws and issues the DELETE for that key; the
    lists are refreshed exactly when the request completed, whatever its
    status, and in no case does it touch the key-creation cells. *)
Theorem revokeKey_refreshes_when_the_request_completes :
  forall keyId completed refreshed w,
    let w' := fst (revokeKey keyId completed refreshed w) in
    snd (revokeKey keyId completed refreshed w) = Js.Normal tt
    /\ requests w' =
       (requests w ++ DeleteKey keyId :: (if completed then refresh_requests else []))%list
    /\ (newKeyName (cells w'), createdKey (cells w'), createLoading (cells w'))
       = (newKeyName (cells w), createdKey (cells w), createLoading (cells w))
    /\ (completed = false -> cells w' = cells w).
Proof.
  intros keyId completed [hr kr ir sr] [s rq co]. cbv zeta.
  run_federation. simpl.
  destruct completed; simpl.
  - destruct kr as [ | | [k' | ]]; simpl;
      destruct ir as [ | | [i | ]]; simpl;
      rewrite <- ?app_assoc; simpl; repeat split; discriminate.
  - repeat split.
Qed.

(** A refresh that meets a [null] keys body. *)
Example fetchAll_null_keys_run :
  let r := mkReplies (JsonObject (mkHealth "healthy" "1" "t" []))
                     JsonNull
                     (JsonObject (Some []))
                     (JsonObject (mkSync true 2 None 0 "push")) in
  let w' := fst (fetchAll r initial_world) in
  health (cells w') = Some (mkHealth "healthy" "1" "t" [])
  /\ syncStatus (cells w') = None
  /\ loading (cells w') = false
  /\ console w' =
     ["Failed to fetch federation data: TypeError: Cannot read properties of null"].
Proof. vm_compute. repeat split. Qed.

End FederationFacts.

(* ===================================================================== *)
(** * The two revisions of the search shell                              *)
(* ===================================================================== *)

Section RevisionFacts.
Import Api.

Lemma take_pending_earlier t ps :
  Forall (fun p => App.branch p = local) ps ->
  match App.take_pending t ps with
  | Some (p, rest) =>
      AppLocal.take t (map App.ticket ps) = Some (map App.ticket rest)
      /\ App.branch p = local
      /\ Forall (fun p => App.branch p = local) rest
  | None => AppLocal.take t (map App.ticket ps) = None
  end.
Proof.
  induction ps as [ | p rest IH]; intros Hall; simpl; [reflexivity | ].
  inversion Hall as [ | ? ? Hp Hrest]; subst.
  destruct (Nat.eqb (App.ticket p) t); [auto | ].
  specialize (IH Hrest).
  destruct (App.take_pending t rest) as [[found rest'] | ].
  - destruct IH as (-> & Hb & Hr). simpl. auto.
  - now rewrite IH.
Qed.

Lemma resume_earlier r s :
  AppLocal.mkState
    (App.query (App.onSearch_resume local r s))
    (App.limit (App.onSearch_resume local r s))
    (App.loading (App.onSearch_resume local r s))
    (App.error (App.onSearch_resume local r s))
    (App.cacheHit (App.onSearch_resume local r s))
    (App.results (App.onSearch_resume local r s))
  = AppLocal.onSearch_resume (AppLocal.Plain r)
      (AppLocal.mkState (App.query s) (App.limit s) (App.loading s) (App.error s)
                        (App.cacheHit s) (App.results s)).
Proof.
  unfold App.onSearch_resume, AppLocal.onSearch_resume,
    qsearchSearch_result, AppLocal.qsearchSearch_result, App.results_or_empty,
    App.to_Boolean.
  destruct r as [status text parsed | reason]; simpl; [ | reflexivity].
  destruct (Http.ok status); simpl; [ | reflexivity].
  destruct parsed; reflexivity.
Qed.

Lemma fire_earlier e w :
  App.searchMode (App.app w) = local ->
  Forall (fun p => App.branch p = local) (App.inflight w) ->
  AppLocal.earlier (App.fire (AppLocal.on_later e) w)
  = AppLocal.fire (AppLocal.on_earlier e) (AppLocal.earlier w)
  /\ App.searchMode (App.app (App.fire (AppLocal.on_later e) w)) = local
  /\ Forall (fun p => App.branch p = local)
            (App.inflight (App.fire (AppLocal.on_later e) w)).
Proof.
  intros Hm Hall. destruct w as [s sn fl nt]; simpl in Hm, Hall.
  destruct e as [q | n | | t r]; simpl.
  - auto.
  - auto.
  - unfold App.onSearch_begin, AppLocal.onSearch_begin, AppLocal.earlier; simpl.
    rewrite Hm, map_app. simpl. repeat split; auto.
    apply Forall_app. auto.
  - unfold App.onSearch_settle, AppLocal.onSearch_settle; simpl.
    pose proof (take_pending_earlier t fl Hall) as H.
    destruct (App.take_pending t fl) as [[p rest] | ].
    + destruct H as (-> & Hb & Hr). rewrite Hb.
      split; [ | split; [ | exact Hr]].
      * unfold AppLocal.earlier; cbn [App.app App.sent App.inflight App.next_ticket
                                       AppLocal.app].
        now rewrite resume_earlier.
      * unfold App.onSearch_resume.
        destruct (qsearchSearch_result r); simpl; exact Hm.
    + rewrite H. auto.
Qed.

(** In local mode the shell with hybrid search behaves as the shell
    before it on every reply but a success whose body is the JSON value
    [null]: for every sequence of typing, limit changes, searches and such
    replies (overlapping or not), the query, limit, loading flag, error,
    cache flag and results, the requests sent and the searches still
    waiting are the same in both.  On a success whose body is [null] the
    earlier shell ends the search with an error and writes neither results
    nor cache flag. *)
Theorem local_mode_behaves_as_the_earlier_shell :
  forall es,
    AppLocal.earlier
      (App.fire_all (App.PickMode local :: map AppLocal.on_later es) App.initial_world)
    = AppLocal.fire_all (map AppLocal.on_earlier es) AppLocal.initial_world
    /\ (forall status text s,
          Http.ok status = true ->
          let s' := AppLocal.onSearch_resume (AppLocal.NullBody status text) s in
          AppLocal.error s' <> None
          /\ AppLocal.loading s' = false
          /\ AppLocal.results s' = AppLocal.results s
          /\ AppLocal.cacheHit s' = AppLocal.cacheHit s).
Proof.
  intros es. split.
  - assert (H : forall w,
               App.searchMode (App.app w) = local ->
               Forall (fun p => App.branch p = local) (App.inflight w) ->
               AppLocal.earlier (App.fire_all (map AppLocal.on_later es) w)
               = AppLocal.fire_all (map AppLocal.on_earlier es) (AppLocal.earlier w)).
    { unfold App.fire_all, AppLocal.fire_all.
      induction es as [ | e rest IH]; intros w Hm Hall; simpl; [reflexivity | ].
      destruct (fire_earlier e w Hm Hall) as (H1 & H2 & H3).
      rewrite (IH _ H2 H3), H1. reflexivity. }
    change (App.fire_all (App.PickMode local :: map AppLocal.on_later es)
                         App.initial_world)
      with (App.fire_all (map AppLocal.on_later es)
              (App.fire (App.PickMode local) App.initial_world)).
    rewrite H; [reflexivity | reflexivity | constructor].
  - intros status text s Hok. cbv zeta.
    unfold AppLocal.onSearch_resume, AppLocal.qsearchSearch_result.
    rewrite Hok. simpl. repeat split. discriminate.
Qed.

End RevisionFacts.
